(** * Screenshot diff report: a shallow embedding of the two scripts

    The repository ships two near-duplicate Python scripts that compare a
    "before" and an "after" tree of PNG screenshots:

    - [.github/diff_report/diff_screenshots.py], the styled variant, which
      validates paths, copies the differing files and fills an HTML template;
    - [.github/diff_screenshots.py], the simpler variant, which has no
      validation, has its copy calls commented out and writes a bare page.

    Both are embedded here, selected by a [variant].  Paths are POSIX paths
    ([os.path.sep] is ["/"]).  The input of a run is what the two globs
    find: for each tree the list of globbed paths, in glob order, each with
    the bytes of its file; the calls that produce this input ([glob.glob],
    and [open] and [read] of each globbed file) are not recorded.  The calls
    by which a script acts on its surroundings ([print], [os.makedirs],
    [shutil.copy], reading the template, writing the page) are recorded, in
    program order, as a trace of events; a call is recorded as issued.
    Exceptions raised by the scripts themselves ([ValueError], [IndexError])
    are results of the embedding, and so are the two ways in which
    [shutil.copy] of a screenshot fails: the source [<root>/<key>] is not a
    file ([FileNotFoundError]), or it is the destination itself
    ([SameFileError]).  Which paths are files is given by the class
    [FileSystem].  The other calls are taken to return: the globbed files
    can be read, directories can be created, and the script's own directory
    holds its template and its stylesheet.  What the Python runtime supplies
    (hashlib, [repr], the iteration order of a [set]) is gathered in the
    class [PyRuntime]. *)

From Stdlib Require Import Ascii ZArith Lia.
From Stdlib Require Import Strings.Byte.
From stdpp Require Import gmap strings list fin_maps fin_sets.

Local Open Scope Z_scope.
Local Open Scope nat_scope.

(** ** Exceptions and results *)

Inductive exn : Type :=
| ValueError (msg : string)
| IndexError (msg : string)
| FileNotFoundError (filename : string)   (* open(filename) of a missing file *)
| SameFileError (src dst : string).       (* shutil.copy of a file onto itself *)

Inductive result (A : Type) : Type :=
| Ok (a : A)
| Raise (e : exn).
Arguments Ok {A} a.
Arguments Raise {A} e.

#[global] Instance exn_eq_dec : EqDecision exn.
Proof. solve_decision. Defined.
#[global] Instance result_eq_dec {A} `{EqDecision A} : EqDecision (result A).
Proof. solve_decision. Defined.

#[global] Instance result_ret : MRet result := λ A a, Ok a.
#[global] Instance result_bind : MBind result := λ A B k r,
  match r with
  | Ok a => k a
  | Raise e => Raise e
  end.

(** A loop whose body may raise: [for x in l: s = step(s, x)]. *)
Fixpoint rfold {S A} (step : S → A → result S) (l : list A) (s : S) : result S :=
  match l with
  | [] => Ok s
  | x :: l' => s' ← step s x; rfold step l' s'
  end.

(** ** Python string and list primitives *)

Module Py.

Definition sep : ascii := "/"%char.
Definition dot : ascii := "."%char.

(** [s.split(c)] for a one-character separator [c]. *)
Fixpoint split (c : ascii) (s : string) : list string :=
  match s with
  | EmptyString => [""]
  | String a s' =>
      if decide (a = c) then "" :: split c s'
      else match split c s' with
           | w :: ws => String a w :: ws
           | [] => [String a ""]
           end
  end.

(** [c.join(parts)]. *)
Fixpoint join (c : ascii) (parts : list string) : string :=
  match parts with
  | [] => ""
  | [w] => w
  | w :: ws => w +:+ String c (join c ws)
  end.

(** [l[i]], with Python's negative indices and its [IndexError]. *)
Definition getitem {A} (l : list A) (i : Z) : result A :=
  let n := Z.of_nat (length l) in
  let j := if (i <? 0)%Z then (i + n)%Z else i in
  if ((0 <=? j)%Z && (j <? n)%Z)%bool then
    match l !! Z.to_nat j with
    | Some x => Ok x
    | None => Raise (IndexError "list index out of range")
    end
  else Raise (IndexError "list index out of range").

(** [l[i:]]: the slice from index [i], clipped like Python's. *)
Definition slice_from {A} (l : list A) (i : Z) : list A :=
  let n := Z.of_nat (length l) in
  let j := if (i <? 0)%Z then Z.max 0 (i + n) else Z.min i n in
  drop (Z.to_nat j) l.

(** [s.startswith(c)] and [s.endswith(c)] for a one-character [c]. *)
Definition startswith (s : string) (c : ascii) : bool :=
  match s with
  | String a _ => bool_decide (a = c)
  | EmptyString => false
  end.

Fixpoint endswith (s : string) (c : ascii) : bool :=
  match s with
  | EmptyString => false
  | String a EmptyString => bool_decide (a = c)
  | String _ s' => endswith s' c
  end.

(** [s.rstrip(c)]. *)
Fixpoint rstrip (s : string) (c : ascii) : string :=
  match s with
  | EmptyString => ""
  | String a s' =>
      match rstrip s' c with
      | EmptyString => if decide (a = c) then "" else String a ""
      | r => String a r
      end
  end.

(** [s[:s.rfind(c) + 1]]: everything up to and including the last [c]. *)
Fixpoint upto_last (s : string) (c : ascii) : string :=
  match s with
  | EmptyString => ""
  | String a s' =>
      match upto_last s' c with
      | EmptyString => if decide (a = c) then String a "" else ""
      | h => String a h
      end
  end.

(** [s == c * len(s)]. *)
Fixpoint all_char (s : string) (c : ascii) : bool :=
  match s with
  | EmptyString => true
  | String a s' => bool_decide (a = c) && all_char s' c
  end.

(** [c in s] for a one-character [c]. *)
Fixpoint contains (s : string) (c : ascii) : bool :=
  match s with
  | EmptyString => false
  | String a s' => bool_decide (a = c) || contains s' c
  end.

(** [s.startswith(p)] for a string [p]. *)
Fixpoint has_prefix (p s : string) : bool :=
  match p, s with
  | EmptyString, _ => true
  | String a p', String b s' => bool_decide (a = b) && has_prefix p' s'
  | String _ _, EmptyString => false
  end.

(** [s.replace(old, new)] for a non-empty [old]: occurrences are replaced
    from left to right and do not overlap.  [skip] counts the characters
    of a match that are still to be passed over. *)
Fixpoint replace_from (old new : string) (skip : nat) (s : string) : string :=
  match s with
  | EmptyString => ""
  | String a s' =>
      match skip with
      | S k => replace_from old new k s'
      | O =>
          if has_prefix old s
          then new +:+ replace_from old new (String.length old - 1) s'
          else String a (replace_from old new 0 s')
      end
  end.

Definition replace (s old new : string) : string := replace_from old new 0 s.

(** [''.join(l)]: the concatenation of a list of strings. *)
Definition cat (l : list string) : string := foldr String.append "" l.

(** [os.path.join(a, b)] of posixpath. *)
Definition os_path_join (a b : string) : string :=
  if startswith b sep then b
  else if (bool_decide (a = "") || endswith a sep)%bool then a +:+ b
  else a +:+ String sep b.

(** [os.path.dirname(p)] of posixpath. *)
Definition os_path_dirname (p : string) : string :=
  let head := upto_last p sep in
  if (negb (bool_decide (head = "")) && negb (all_char head sep))%bool
  then rstrip head sep
  else head.

End Py.

(** ** Recorded calls and the trace monad *)

Inductive event : Type :=
| Print (line : string)               (* print(line) *)
| Makedirs (dir : string)             (* os.makedirs(dir, exist_ok=True) *)
| Copy (src dst : string)             (* shutil.copy(src, dst) *)
| ReadText (file : string)            (* open(file, "r").read() *)
| WriteText (file text : string).     (* open(file, "w").write(text) *)

(** A computation ends in a value or an exception and leaves the events it
    issued up to that point. *)
Record M (A : Type) : Type := MkM { outcome : result A; trace : list event }.
Arguments MkM {A} outcome trace.
Arguments outcome {A} m.
Arguments trace {A} m.

#[global] Instance M_ret : MRet M := λ A a, MkM (Ok a) [].
#[global] Instance M_bind : MBind M := λ A B k m,
  match outcome m with
  | Ok a => MkM (outcome (k a)) (trace m ++ trace (k a))
  | Raise e => MkM (Raise e) (trace m)
  end.

Definition emit (e : event) : M unit := MkM (Ok tt) [e].
Definition lift {A} (r : result A) : M A := MkM r [].

(** [for x in l: s = body(s, x)] with events. *)
Fixpoint mfold {S A} (body : S → A → M S) (l : list A) (s : S) : M S :=
  match l with
  | [] => mret s
  | x :: l' => s' ← body s x; mfold body l' s'
  end.

#[global] Instance event_eq_dec : EqDecision event.
Proof. solve_decision. Defined.

(** The [(src, dst)] pairs of the [shutil.copy] calls of a trace, in order. *)
Definition copies (tr : list event) : list (string * string) :=
  omap (λ e, match e with Copy src dst => Some (src, dst) | _ => None end) tr.

(** [x] occurs in [l] as a run of consecutive events. *)
Definition segment {A} (x l : list A) : Prop := ∃ l1 l2, l = l1 ++ x ++ l2.

(** [s in t] for strings. *)
Definition substring (s t : string) : Prop := ∃ pre post, t = pre +:+ s +:+ post.


(** ** What the Python runtime supplies *)

Class PyRuntime : Type := {
  (** A [hashlib.new('sha256')] object: [update] and [hexdigest]. *)
  hash_state : Type;
  hash_new : hash_state;
  hash_update : hash_state → list byte → hash_state;
  hash_hexdigest : hash_state → string;
  (** hashlib: repeated [update] calls are equivalent to a single call with
      the concatenation of all the arguments. *)
  hash_update_app : ∀ h a b, hash_update (hash_update h a) b = hash_update h (a ++ b);
  hash_update_nil : ∀ h, hash_update h [] = h;
  (** [repr(s)], as printed by the [=] specifier of an f-string. *)
  repr_str : string → string;
  (** [str(s.upper)]: the text of a bound method, not the upper-cased [s]. *)
  str_upper_method : string → string;
  (** The order in which [for x in X] visits a [set]. *)
  set_iter : gset string → list string;
  set_iter_perm : ∀ X, set_iter X ≡ₚ elements X
}.

(** The digest of a whole byte string. *)
Definition sha256 `{PyRuntime} (data : list byte) : string :=
  hash_hexdigest (hash_update hash_new data).

(** ** The file system as [shutil.copy] finds it

    The scripts write below the output directory only; what the file system
    answers about the paths below the two roots is taken not to change
    during a run. *)

Class FileSystem : Type := {
  (** The path names an existing file.  (A directory in its place, on which
      [open] raises [IsADirectoryError], is not modelled.) *)
  is_file : string → bool;
  (** [os.path.samefile(p, q)], and [False] where that raises [OSError]. *)
  samefile : string → string → bool;
  (** A file is the same file as itself. *)
  samefile_refl : ∀ p, is_file p = true → samefile p p = true
}.

(** What [shutil.copy(src, dst)] does for a [dst] that is not a directory:
    [copyfile] raises [SameFileError] when both paths name one file, and
    opening a [src] that is not a file raises [FileNotFoundError]. *)
Definition shutil_copy_result `{FileSystem} (src dst : string) : result unit :=
  if samefile src dst then Raise (SameFileError src dst)
  else if is_file src then Ok tt
  else Raise (FileNotFoundError src).

(** ** Data model *)

Inductive variant : Type :=
| Styled   (* .github/diff_report/diff_screenshots.py *)
| Simple.  (* .github/diff_screenshots.py *)

(** A file found by [list_files_recursively]: its path as globbed and the
    bytes [open(path, 'rb')] reads. *)
Record file : Type := File { path : string; content : list byte }.

(** The three positional command-line arguments. *)
Record args : Type := Args { before_dir : string; after_dir : string; output_dir : string }.

(** The script's own directory and the text of its [index.html] template. *)
Record assets : Type := Assets { script_dir : string; template : string }.

(** The program variables after the first loop. *)
Record before_scan : Type := BeforeScan {
  before_screenshots : gmap string string;
  paths_before : list string
}.

(** The program variables of the second loop. *)
Record after_scan : Type := AfterScan {
  only_in_after : list string;
  diffs : list string;
  paths_after : list string
}.

(** The three reported buckets. *)
Record diff_result : Type := DiffResult {
  onlyInBefore : gset string;
  onlyInAfter : list string;
  changed : list string
}.

(** ** Fingerprinting and path normalization *)

Definition CHUNK : nat := 8 * 1024.

(** [while chunk := file.read(8192): hash_func.update(chunk)].  [rest] is
    what the file object has not yet returned. *)
Fixpoint read_loop `{PyRuntime} (fuel : nat) (h : hash_state) (rest : list byte)
  : option hash_state :=
  match fuel with
  | O => None
  | S fuel' =>
      match take CHUNK rest with
      | [] => Some h
      | chunk => read_loop fuel' (hash_update h chunk) (drop CHUNK rest)
      end
  end.

Definition compute_file_hash `{PyRuntime} (data : list byte) : string :=
  match read_loop (S (length data)) hash_new data with
  | Some h => hash_hexdigest h
  | None => ""
  end.

(** The chunks that the successive [file.read(8192)] calls return, up to
    the empty one that ends the loop. *)
Fixpoint read_chunks (fuel : nat) (rest : list byte) : option (list (list byte)) :=
  match fuel with
  | O => None
  | S fuel' =>
      match take CHUNK rest with
      | [] => Some []
      | chunk => cs ← read_chunks fuel' (drop CHUNK rest); Some (chunk :: cs)
      end
  end.

Definition get_pathname_fragment (v : variant) (p : string) : result string :=
  let parts := Py.split Py.sep p in
  match v with
  | Styled =>
      if decide (length parts < 3)
      then Raise (ValueError ("Path should have at least 3 parts: " +:+ p))
      else Ok (Py.join Py.sep (Py.slice_from parts (-3)))
  | Simple => Ok (Py.join Py.sep (Py.slice_from parts (-3)))
  end.

(** The key a globbed file reduces to. *)
Definition key_of (v : variant) (f : file) : result string :=
  get_pathname_fragment v (path f).

(** [keyed v files keys]: each file reduces to the key at its position. *)
Definition keyed (v : variant) (files : list file) (keys : list string) : Prop :=
  Forall2 (λ f k, key_of v f = Ok k) files keys.

(** Keys of the styled script have exactly three segments; the simpler
    script constrains nothing. *)
Definition well_formed_key (v : variant) (K : string) : Prop :=
  v = Styled → length (Py.split Py.sep K) = 3.

(** Only the styled script defines this helper, and nothing calls it. *)
Definition get_locale_and_screenshot_name (p : string) : result (string * string) :=
  let parts := Py.split Py.sep p in
  if decide (length parts ≠ 3)
  then Raise (ValueError ("Path should have 3 parts: " +:+ p))
  else
    locale ← Py.getitem parts 0;
    last ← Py.getitem parts (-1);
    name ← Py.getitem (Py.split Py.dot last) 0;
    mret (locale, name).


(** ** The diff engine *)

(** First loop: hash every "before" file under its key. *)
Definition scan_before_step `{PyRuntime} (v : variant) (st : before_scan) (f : file)
  : result before_scan :=
  screenshot_path ← get_pathname_fragment v (path f);
  mret (BeforeScan
          (<[screenshot_path := compute_file_hash (content f)]> (before_screenshots st))
          (paths_before st ++ [screenshot_path])).

Definition scan_before `{PyRuntime} (v : variant) (files : list file) : result before_scan :=
  rfold (scan_before_step v) files (BeforeScan ∅ []).

(** Second loop: classify every "after" file against the before map. *)
Definition scan_after_step `{PyRuntime} (v : variant) (before : gmap string string)
    (st : after_scan) (f : file) : result after_scan :=
  screenshot_path ← get_pathname_fragment v (path f);
  let st' :=
    match before !! screenshot_path with
    | None =>
        AfterScan (only_in_after st ++ [screenshot_path]) (diffs st) (paths_after st)
    | Some h =>
        if decide (h ≠ compute_file_hash (content f))
        then AfterScan (only_in_after st) (diffs st ++ [screenshot_path]) (paths_after st)
        else st
    end in
  mret (AfterScan (only_in_after st') (diffs st') (paths_after st' ++ [screenshot_path])).

Definition scan_after `{PyRuntime} (v : variant) (before : gmap string string)
    (files : list file) : result after_scan :=
  rfold (scan_after_step v before) files (AfterScan [] [] []).

(** [only_in_before = set(paths_before) - set(paths_after)]. *)
Definition diff_engine `{PyRuntime} (v : variant) (before after : list file)
  : result diff_result :=
  b ← scan_before v before;
  a ← scan_after v (before_screenshots b) after;
  mret (DiffResult (list_to_set (paths_before b) ∖ list_to_set (paths_after a))
                   (only_in_after a) (diffs a)).

(** The scripts keep no "unchanged" bucket: it is the branch of the second
    loop that appends nothing, taken by an "after" file whose key is in the
    before map with an equal digest. *)
Definition falls_through `{PyRuntime} (v : variant) (before : gmap string string) (f : file)
  : option string :=
  match key_of v f with
  | Ok k => if decide (before !! k = Some (compute_file_hash (content f))) then Some k else None
  | Raise _ => None
  end.

(** The branch of the second loop that appends to [diffs]. *)
Definition differs `{PyRuntime} (v : variant) (before : gmap string string) (f : file)
  : option string :=
  match key_of v f with
  | Ok k =>
      match before !! k with
      | Some h => if decide (h ≠ compute_file_hash (content f)) then Some k else None
      | None => None
      end
  | Raise _ => None
  end.

Definition unchanged `{PyRuntime} (v : variant) (before after : list file) : list string :=
  match scan_before v before with
  | Ok b => omap (falls_through v (before_screenshots b)) after
  | Raise _ => []
  end.

(** The fourth class in the specification's words: "unlisted keys ... are
    implicitly unchanged", the keys that none of the three buckets lists. *)
Definition unlisted (d : diff_result) (K : string) : Prop :=
  (K ∉ onlyInBefore d) ∧ (K ∉ onlyInAfter d) ∧ (K ∉ changed d).

(** ** The report renderer *)

(** [screenshot_path.split(os.path.sep)[-1].split('.')[0]] *)
Definition screenshot_name (screenshot_path : string) : result string :=
  last ← Py.getitem (Py.split Py.sep screenshot_path) (-1);
  Py.getitem (Py.split Py.dot last) 0.

(** [{screenshot_path.split(os.path.sep)[1].upper}]: the method, not its call. *)
Definition locale_heading `{PyRuntime} (screenshot_path : string) : result string :=
  part ← Py.getitem (Py.split Py.sep screenshot_path) 1;
  mret (str_upper_method part).

Definition img (subdir screenshot_path : string) : string :=
  "<img src='" +:+ Py.os_path_join subdir screenshot_path +:+ "'>".

Definition removed_fragment `{PyRuntime} (v : variant) (screenshot_path : string)
  : result string :=
  match v with
  | Styled =>
      heading ← locale_heading screenshot_path;
      name ← screenshot_name screenshot_path;
      mret ("<p><h2>" +:+ heading +:+ ": REMOVED " +:+ name +:+ "</h2>"
              +:+ img "before" screenshot_path +:+ "</p>")
  | Simple =>
      name ← screenshot_name screenshot_path;
      mret ("<p>REMOVED " +:+ name +:+ "</br>" +:+ img "before" screenshot_path +:+ "</p>")
  end.

Definition added_fragment `{PyRuntime} (v : variant) (screenshot_path : string)
  : result string :=
  match v with
  | Styled =>
      heading ← locale_heading screenshot_path;
      name ← screenshot_name screenshot_path;
      mret ("<p><h2>" +:+ heading +:+ ": ADDED " +:+ name +:+ "</h2>"
              +:+ img "after" screenshot_path +:+ "</p>")
  | Simple =>
      name ← screenshot_name screenshot_path;
      mret ("<p>ADDED " +:+ name +:+ "</br>" +:+ img "after" screenshot_path +:+ "</p>")
  end.

Definition changed_fragment `{PyRuntime} (v : variant) (screenshot_path : string)
  : result string :=
  match v with
  | Styled =>
      heading ← locale_heading screenshot_path;
      name ← screenshot_name screenshot_path;
      mret ("<p><h2>" +:+ heading +:+ ": " +:+ name +:+ "</h2>"
              +:+ img "before" screenshot_path +:+ "&nbsp;"
              +:+ img "after" screenshot_path +:+ "</p>")
  | Simple =>
      name ← screenshot_name screenshot_path;
      mret ("<p>" +:+ name +:+ "</br>" +:+ img "before" screenshot_path +:+ "&nbsp;"
              +:+ img "after" screenshot_path +:+ "</p>")
  end.

Definition output_dir_before (a : args) : string := Py.os_path_join (output_dir a) "before".
Definition output_dir_after (a : args) : string := Py.os_path_join (output_dir a) "after".

(** [shutil.copy(src, dst)]: the call is issued, and it returns or raises;
    the simpler script has every such call commented out. *)
Definition shutil_copy `{FileSystem} (v : variant) (src dst : string) : M unit :=
  match v with
  | Styled => emit (Copy src dst);; lift (shutil_copy_result src dst)
  | Simple => mret tt
  end.

(** The copy from the "before" root (resp. the "after" root) of the
    screenshot of a key returns.  The simpler script copies nothing. *)
Definition copied_before `{FileSystem} (v : variant) (a : args) (K : string) : Prop :=
  v = Styled →
  shutil_copy_result (Py.os_path_join (before_dir a) K)
                     (Py.os_path_join (output_dir_before a) K) = Ok tt.
Definition copied_after `{FileSystem} (v : variant) (a : args) (K : string) : Prop :=
  v = Styled →
  shutil_copy_result (Py.os_path_join (after_dir a) K)
                     (Py.os_path_join (output_dir_after a) K) = Ok tt.

(** Every copy that the renderer issues for the buckets returns. *)
Definition all_copied `{FileSystem} (v : variant) (a : args) (d : diff_result) : Prop :=
  (∀ K, K ∈ onlyInBefore d ∨ K ∈ changed d → copied_before v a K)
  ∧ (∀ K, K ∈ onlyInAfter d ∨ K ∈ changed d → copied_after v a K).

(** Body of [for screenshot_path in only_in_before]. *)
Definition render_removed `{PyRuntime} `{FileSystem} (v : variant) (a : args)
    (html : string) (screenshot_path : string) : M string :=
  emit (Print ("Screenshot only in before: " +:+ screenshot_path
                 +:+ " | output_dir_before=" +:+ repr_str (output_dir_before a)));;
  emit (Makedirs (Py.os_path_join (output_dir_before a) (Py.os_path_dirname screenshot_path)));;
  shutil_copy v (Py.os_path_join (before_dir a) screenshot_path)
                (Py.os_path_join (output_dir_before a) screenshot_path);;
  fragment ← lift (removed_fragment v screenshot_path);
  mret (html +:+ fragment).

(** Body of [for screenshot_path in only_in_after]. *)
Definition render_added `{PyRuntime} `{FileSystem} (v : variant) (a : args)
    (html : string) (screenshot_path : string) : M string :=
  emit (Print ("Screenshot only in after: " +:+ screenshot_path
                 +:+ " | output_dir_after=" +:+ repr_str (output_dir_after a)));;
  emit (Makedirs (Py.os_path_join (output_dir_after a) (Py.os_path_dirname screenshot_path)));;
  shutil_copy v (Py.os_path_join (after_dir a) screenshot_path)
                (Py.os_path_join (output_dir_after a) screenshot_path);;
  fragment ← lift (added_fragment v screenshot_path);
  mret (html +:+ fragment).

(** Body of [for screenshot_path in diffs]. *)
Definition render_changed `{PyRuntime} `{FileSystem} (v : variant) (a : args)
    (html : string) (screenshot_path : string) : M string :=
  emit (Print ("Screenshot different: " +:+ screenshot_path));;
  emit (Makedirs (Py.os_path_join (output_dir_before a) (Py.os_path_dirname screenshot_path)));;
  emit (Makedirs (Py.os_path_join (output_dir_after a) (Py.os_path_dirname screenshot_path)));;
  shutil_copy v (Py.os_path_join (before_dir a) screenshot_path)
                (Py.os_path_join (output_dir_before a) screenshot_path);;
  shutil_copy v (Py.os_path_join (after_dir a) screenshot_path)
                (Py.os_path_join (output_dir_after a) screenshot_path);;
  fragment ← lift (changed_fragment v screenshot_path);
  mret (html +:+ fragment).

(** The calls of one round of each loop, in program order. *)
Definition removed_events `{PyRuntime} (v : variant) (a : args) (K : string) : list event :=
  [ Print ("Screenshot only in before: " +:+ K
             +:+ " | output_dir_before=" +:+ repr_str (output_dir_before a));
    Makedirs (Py.os_path_join (output_dir_before a) (Py.os_path_dirname K)) ]
  ++ match v with
     | Styled => [Copy (Py.os_path_join (before_dir a) K)
                       (Py.os_path_join (output_dir_before a) K)]
     | Simple => []
     end.
Definition added_events `{PyRuntime} (v : variant) (a : args) (K : string) : list event :=
  [ Print ("Screenshot only in after: " +:+ K
             +:+ " | output_dir_after=" +:+ repr_str (output_dir_after a));
    Makedirs (Py.os_path_join (output_dir_after a) (Py.os_path_dirname K)) ]
  ++ match v with
     | Styled => [Copy (Py.os_path_join (after_dir a) K)
                       (Py.os_path_join (output_dir_after a) K)]
     | Simple => []
     end.
Definition changed_events `{PyRuntime} (v : variant) (a : args) (K : string) : list event :=
  [ Print ("Screenshot different: " +:+ K);
    Makedirs (Py.os_path_join (output_dir_before a) (Py.os_path_dirname K));
    Makedirs (Py.os_path_join (output_dir_after a) (Py.os_path_dirname K)) ]
  ++ match v with
     | Styled => [Copy (Py.os_path_join (before_dir a) K)
                       (Py.os_path_join (output_dir_before a) K);
                  Copy (Py.os_path_join (after_dir a) K)
                       (Py.os_path_join (output_dir_after a) K)]
     | Simple => []
     end.

(** [if not only_in_after and not only_in_before and not diffs] *)
Definition no_differences (d : diff_result) : bool :=
  bool_decide (onlyInAfter d = []) && bool_decide (onlyInBefore d = ∅)
  && bool_decide (changed d = []).

Definition no_differences_fragment (v : variant) : string :=
  match v with
  | Styled => "<h1>No differences found</h1>"
  | Simple => "<p>No differences found</p>"
  end.

Definition render_no_differences (v : variant) (html : string) : M string :=
  match v with
  | Styled => emit (Print "No differences found");; mret (html +:+ no_differences_fragment v)
  | Simple => mret (html +:+ no_differences_fragment v)
  end.

(** The string the fragments are appended to: [html_content = ""] in the
    styled script, [html_output = "<html><body>"] in the simpler one. *)
Definition html_start (v : variant) : string :=
  match v with
  | Styled => ""
  | Simple => "<html><body>"
  end.

Definition render `{PyRuntime} `{FileSystem} (v : variant) (a : args) (d : diff_result)
  : M string :=
  emit (Makedirs (output_dir_before a));;
  emit (Makedirs (output_dir_after a));;
  html ← mfold (render_removed v a) (set_iter (onlyInBefore d)) (html_start v);
  html ← mfold (render_added v a) (onlyInAfter d) html;
  html ← mfold (render_changed v a) (changed d) html;
  if no_differences d then render_no_differences v html else mret html.

Definition placeholder : string := "{{ content }}".

(** Writing the page: template substitution and stylesheet copy in the
    styled script, a closing tag in the simpler one.  The script's own
    directory is taken to hold [index.html] and [pico.min.css], so that
    these calls return. *)
Definition publish (v : variant) (a : args) (s : assets) (html : string) : M unit :=
  match v with
  | Styled =>
      emit (ReadText (Py.os_path_join (script_dir s) "index.html"));;
      let html_output := Py.replace (template s) placeholder html in
      emit (WriteText (Py.os_path_join (output_dir a) "index.html") html_output);;
      emit (Copy (Py.os_path_join (script_dir s) "pico.min.css")
                 (Py.os_path_join (output_dir a) "pico.min.css"))
  | Simple =>
      let html_output := html +:+ "</body></html>" in
      emit (WriteText (Py.os_path_join (output_dir a) "diffs.html") html_output)
  end.

(** The whole script, given what the two globs found. *)
Definition main `{PyRuntime} `{FileSystem} (v : variant) (a : args) (s : assets)
    (before after : list file) : M unit :=
  d ← lift (diff_engine v before after);
  html ← render v a d;
  publish v a s html.

(** ** A reference runtime

    To run the embedding on concrete inputs: hashlib's SHA-256 (FIPS 180-4)
    over the bytes fed so far, a [repr] that quotes its argument (right for
    paths without quotes or backslashes), the text CPython prints for the
    bound method (the address is that of one run), and a set visited in the
    order of [elements]. *)

Module SHA256.
Local Open Scope Z_scope.

(** Words are 32-bit: every sum is cut back to 32 bits. *)
Definition w32 (x : Z) : Z := Z.land x 0xffffffff.
Definition add32 (x y : Z) : Z := w32 (x + y)%Z.
Definition rotr (n x : Z) : Z := Z.lor (Z.shiftr x n) (w32 (Z.shiftl x (32 - n))).
Definition shr (n x : Z) : Z := Z.shiftr x n.
Definition not32 (x : Z) : Z := Z.lxor x 0xffffffff.

Definition Ch (x y z : Z) : Z := Z.lxor (Z.land x y) (Z.land (not32 x) z).
Definition Maj (x y z : Z) : Z := Z.lxor (Z.lxor (Z.land x y) (Z.land x z)) (Z.land y z).
Definition Sigma0 (x : Z) : Z := Z.lxor (Z.lxor (rotr 2 x) (rotr 13 x)) (rotr 22 x).
Definition Sigma1 (x : Z) : Z := Z.lxor (Z.lxor (rotr 6 x) (rotr 11 x)) (rotr 25 x).
Definition sigma0 (x : Z) : Z := Z.lxor (Z.lxor (rotr 7 x) (rotr 18 x)) (shr 3 x).
Definition sigma1 (x : Z) : Z := Z.lxor (Z.lxor (rotr 17 x) (rotr 19 x)) (shr 10 x).

(** The constants are fractional parts of roots of the first primes. *)
Definition is_prime (p : Z) : bool :=
  forallb (λ d, negb (p mod d =? 0)) (seqZ 2 (p - 2)).

Definition primes (n : nat) : list Z := take n (filter (λ p, is_prime p = true) (seqZ 2 310)).

(** The largest [r] below [2 ^ bits] with [r ^ 3 ≤ x], found bit by bit. *)
Fixpoint cube_root (bits : nat) (x r : Z) : Z :=
  match bits with
  | O => r
  | S bits' =>
      let c := r + Z.shiftl 1 (Z.of_nat bits') in
      cube_root bits' x (if c * c * c <=? x then c else r)
  end.

(** The first 32 bits of the fractional parts of the cube roots of the
    first 64 primes. *)
Definition K : list Z :=
  Eval vm_compute in (λ p, w32 (cube_root 36 (Z.shiftl p 96) 0)) <$> primes 64.

(** The first 32 bits of the fractional parts of the square roots of the
    first 8 primes. *)
Definition H0 : list Z :=
  Eval vm_compute in (λ p, w32 (Z.sqrt (Z.shiftl p 64))) <$> primes 8.

(** Big-endian bytes of [x], [n] of them. *)
Fixpoint be_bytes (n : nat) (x : Z) : list Z :=
  match n with
  | O => []
  | S n' => Z.land (Z.shiftr x (8 * Z.of_nat n')) 0xff :: be_bytes n' x
  end.

(** The message, a 1 bit, zeros up to 56 mod 64, and the bit length. *)
Definition pad (msg : list Z) : list Z :=
  let l := Z.of_nat (length msg) in
  msg ++ [0x80] ++ replicate (Z.to_nat ((55 - l) mod 64)) 0 ++ be_bytes 8 (8 * l).

Fixpoint words (n : nat) (bs : list Z) : list Z :=
  match n, bs with
  | S n', b0 :: b1 :: b2 :: b3 :: rest =>
      (Z.shiftl b0 24 + Z.shiftl b1 16 + Z.shiftl b2 8 + b3) :: words n' rest
  | _, _ => []
  end.

(** The message schedule, most recent word first. *)
Fixpoint schedule (n : nat) (rev_w : list Z) : list Z :=
  match n with
  | O => rev_w
  | S n' =>
      let w := add32 (add32 (sigma1 (nth 1 rev_w 0)) (nth 6 rev_w 0))
                     (add32 (sigma0 (nth 14 rev_w 0)) (nth 15 rev_w 0)) in
      schedule n' (w :: rev_w)
  end.

Definition round (s : list Z) (kw : Z * Z) : list Z :=
  match s with
  | [a; b; c; d; e; f; g; h] =>
      let t1 := add32 (add32 (add32 h (Sigma1 e)) (add32 (Ch e f g) kw.1)) kw.2 in
      let t2 := add32 (Sigma0 a) (Maj a b c) in
      [add32 t1 t2; a; b; c; add32 d t1; e; f; g]
  | _ => s
  end.

Definition compress (h : list Z) (block : list Z) : list Z :=
  let w := rev (schedule 48 (rev (words 16 block))) in
  zip_with add32 h (foldl round h (zip K w)).

Fixpoint blocks (n : nat) (h : list Z) (bs : list Z) : list Z :=
  match n with
  | O => h
  | S n' => blocks n' (compress h (take 64 bs)) (drop 64 bs)
  end.

Definition hex_digit (x : Z) : ascii :=
  ascii_of_N (Z.to_N (if x <? 10 then 48 + x else 87 + x)).

Fixpoint hex (n : nat) (x : Z) : string :=
  match n with
  | O => ""
  | S n' => String (hex_digit (Z.land (Z.shiftr x (4 * Z.of_nat n')) 0xf)) (hex n' x)
  end.

Definition hexdigest (msg : list byte) : string :=
  let bs := pad ((λ b, Z.of_N (Byte.to_N b)) <$> msg) in
  let h := blocks (length bs / 64)%nat H0 bs in
  foldr (λ w s, hex 8 w +:+ s) "" h.

End SHA256.

Definition reference_runtime : PyRuntime := {|
  hash_state := list byte;
  hash_new := [];
  hash_update := λ h chunk, h ++ chunk;
  hash_hexdigest := SHA256.hexdigest;
  hash_update_app := λ h a b, eq_sym (List.app_assoc h a b);
  hash_update_nil := λ h, List.app_nil_r h;
  repr_str := λ s, "'" +:+ s +:+ "'";
  str_upper_method := λ _, "<built-in method upper of str object at 0x7f3b5c0e2d30>";
  set_iter := elements;
  set_iter_perm := λ X, reflexivity (elements X)
|}.

(** A file system that holds the files of a tree and nothing else, and in
    which different paths name different files. *)
Definition in_tree (tree : list file) (p : string) : bool :=
  bool_decide (p ∈ map path tree).

Definition tree_fs (tree : list file) : FileSystem := {|
  is_file := in_tree tree;
  samefile := λ p q, if decide (p = q) then in_tree tree p else false;
  samefile_refl := λ p Hp,
    match decide (p = p) as s return (if s then in_tree tree p else false) = true with
    | left _ => Hp
    | right n => match n eq_refl with end
    end
|}.

(** Bytes of a file, written as text. *)
Definition bytes (s : string) : list byte := String.list_byte_of_string s.

(** The spec's scenario. *)
Definition scenario_args : args := Args "shots/before" "shots/after" "out".
Definition scenario_assets : assets :=
  Assets "/ci/diff_report" "<html><main>{{ content }}</main></html>".
Definition scenario_before : list file :=
  [ File "shots/before/en/tools_views/A.png" (bytes "X");
    File "shots/before/es/tools_views/B.png" (bytes "Y") ].
Definition scenario_after : list file :=
  [ File "shots/after/en/tools_views/A.png" (bytes "X'");
    File "shots/after/fr/tools_views/C.png" (bytes "Z") ].

(** An "after" tree with the keys and bytes of the scenario's "before" tree. *)
Definition scenario_same : list file :=
  [ File "shots/after/en/tools_views/A.png" (bytes "X");
    File "shots/after/es/tools_views/B.png" (bytes "Y") ].

(** The three buckets the specification gives for its scenario. *)
Definition scenario_result : diff_result :=
  DiffResult {[ "es/tools_views/B.png" ]} ["fr/tools_views/C.png"] ["en/tools_views/A.png"].

(** Two runs of a test suite kept side by side under one root: both files
    reduce to the key "en/tools_views/A.png". *)
Definition key_A : string := "en/tools_views/A.png".
Definition run1_before_X : file := File "shots/before/run1/en/tools_views/A.png" (bytes "X").
Definition run2_before_Y : file := File "shots/before/run2/en/tools_views/A.png" (bytes "Y").
Definition run1_after_X : file := File "shots/after/run1/en/tools_views/A.png" (bytes "X").
Definition run2_after_Y : file := File "shots/after/run2/en/tools_views/A.png" (bytes "Y").
Definition run3_after_Z : file := File "shots/after/run3/en/tools_views/A.png" (bytes "Z").
Definition plain_before_X : file := File "shots/before/en/tools_views/A.png" (bytes "X").
Definition plain_after_X : file := File "shots/after/en/tools_views/A.png" (bytes "X").
Definition plain_after_Y : file := File "shots/after/en/tools_views/A.png" (bytes "Y").

(** The file system of the spec's scenario. *)
Definition scenario_fs : FileSystem := tree_fs (scenario_before ++ scenario_after).

(** Two "after" files of one key, one of them in its place below the root;
    and the same with none of them in its place. *)
Definition duplicates_fs : FileSystem :=
  tree_fs ([plain_before_X] ++ [plain_after_Y; run3_after_Z]).
Definition displaced_fs : FileSystem :=
  tree_fs ([plain_before_X] ++ [run2_after_Y; run3_after_Z]).

(** Roots of one segment with screenshots two levels below them. *)
Definition flat_args : args := Args "b" "a" "out".
Definition flat_before : list file := [File "b/x/A.png" (bytes "X")].
Definition flat_after : list file := [File "a/x/A.png" (bytes "Y")].
Definition flat_fs : FileSystem := tree_fs (flat_before ++ flat_after).

(** A root of one segment with a screenshot directly below it. *)
Definition short_args : args := Args "before" "after" "out".
Definition short_before : list file := [File "before/en/tools_views/A.png" (bytes "X")].
Definition short_after : list file :=
  [File "after/A.png" (bytes "X"); File "after/en/tools_views/A.png" (bytes "Y")].

(** * Properties *)

(** ** Strings and paths *)

Section PyFacts.
Import Py.

Lemma append_nil_l (t : string) : "" +:+ t = t.
Proof. reflexivity. Qed.

Lemma append_cons a (s t : string) : String a s +:+ t = String a (s +:+ t).
Proof. reflexivity. Qed.

Lemma append_nil_r (s : string) : s +:+ "" = s.
Proof. induction s as [|a s IH]; [done | by rewrite append_cons, IH]. Qed.

Lemma append_assoc (s t u : string) : (s +:+ t) +:+ u = s +:+ t +:+ u.
Proof. induction s as [|a s IH]; [done | by rewrite !append_cons, IH]. Qed.

Lemma split_not_nil c s : split c s ≠ [].
Proof.
  destruct s as [|a s]; simpl; [done|].
  case_decide; [done|]. by destruct (split c s).
Qed.

Lemma split_length_pos c s : 0 < length (split c s).
Proof. generalize (split_not_nil c s). destruct (split c s); simpl; [done | lia]. Qed.

Lemma join_cons c w ws :
  ws ≠ [] → join c (w :: ws) = w +:+ String c (join c ws).
Proof. by destruct ws. Qed.

(** Joining what was split gives the string back. *)
Lemma join_split c s : join c (split c s) = s.
Proof.
  induction s as [|a s IH]; simpl; [done|].
  case_decide as Hc.
  - subst a. rewrite join_cons by apply split_not_nil. by rewrite append_nil_l, IH.
  - pose proof (split_not_nil c s) as Hne.
    destruct (split c s) as [|w ws]; [done|].
    destruct ws as [|w' ws]; [simpl in *; by rewrite <- IH|].
    rewrite join_cons in * by done. by rewrite append_cons, IH.
Qed.

Lemma split_no_sep c s : Forall (λ w, contains w c = false) (split c s).
Proof.
  induction s as [|a s IH]; simpl.
  - by repeat constructor.
  - case_decide as Hc.
    + by constructor.
    + pose proof (split_not_nil c s) as Hne.
      destruct (split c s) as [|w ws]; [done|].
      inversion_clear IH as [|?? Hw Hws]. constructor; [|done].
      simpl. rewrite Hw. by rewrite bool_decide_eq_false_2.
Qed.

Lemma split_free c w : contains w c = false → split c w = [w].
Proof.
  induction w as [|a w IH]; simpl; [done|].
  intros [Ha Hw]%orb_false_elim. apply bool_decide_eq_false_1 in Ha.
  rewrite decide_False by done. by rewrite IH.
Qed.

Lemma split_append c w rest :
  contains w c = false → split c (w +:+ String c rest) = w :: split c rest.
Proof.
  induction w as [|a w IH].
  - intros _. rewrite append_nil_l. simpl. by rewrite decide_True.
  - intros [Ha Hw]%orb_false_elim. apply bool_decide_eq_false_1 in Ha.
    rewrite append_cons. simpl. rewrite decide_False by done. by rewrite IH.
Qed.

(** Splitting what was joined gives the segments back, provided none of
    them contains the separator. *)
Lemma split_join c parts :
  parts ≠ [] → Forall (λ w, contains w c = false) parts →
  split c (join c parts) = parts.
Proof.
  induction parts as [|w ws IH]; [done|]. intros _ Hall.
  inversion_clear Hall as [|?? Hw Hws].
  destruct ws as [|w' ws].
  - simpl. by apply split_free.
  - rewrite join_cons by done. rewrite split_append by done.
    f_equal. by apply IH.
Qed.

(** [parts[-3:]] drops all but the last three elements. *)
Lemma slice_from_drop {A} (l : list A) : slice_from l (-3) = drop (length l - 3) l.
Proof.
  unfold slice_from. change (-3 <? 0)%Z with true. cbv iota zeta.
  f_equal. lia.
Qed.

Lemma slice_from_last3 {A} (pre : list A) a b c :
  slice_from (pre ++ [a; b; c]) (-3) = [a; b; c].
Proof.
  rewrite slice_from_drop, length_app. simpl.
  replace (length pre + 3 - 3) with (length pre) by lia.
  by rewrite drop_app_length.
Qed.

Lemma slice_from_short {A} (l : list A) : length l < 3 → slice_from l (-3) = l.
Proof.
  intros Hl. rewrite slice_from_drop.
  by replace (length l - 3) with 0 by lia.
Qed.

Lemma slice_from_length {A} (l : list A) :
  length (slice_from l (-3)) = Nat.min 3 (length l).
Proof. rewrite slice_from_drop, length_drop. lia. Qed.

Lemma last_three {A} (l : list A) :
  3 ≤ length l → ∃ pre a b c, l = pre ++ [a; b; c].
Proof.
  intros Hl. exists (take (length l - 3) l).
  pose proof (take_drop (length l - 3) l) as Htd.
  assert (length (drop (length l - 3) l) = 3) as Hd by (rewrite length_drop; lia).
  destruct (drop (length l - 3) l) as [|a [|b [|c [|? ?]]]]; simplify_eq/=.
  by exists a, b, c.
Qed.

Lemma getitem_last {A} (l : list A) x : getitem (l ++ [x]) (-1) = Ok x.
Proof.
  unfold getitem. change (-1 <? 0)%Z with true. cbv iota zeta.
  rewrite length_app. change (length [x]) with 1.
  replace (Z.to_nat _) with (length l) by lia.
  rewrite lookup_app_r by lia. rewrite Nat.sub_diag.
  case_match eqn:Hb; [done|].
  apply andb_false_iff in Hb as [Hb%Z.leb_gt|Hb%Z.ltb_ge]; lia.
Qed.

Lemma getitem_nat {A} (l : list A) (i : nat) x :
  l !! i = Some x → getitem l (Z.of_nat i) = Ok x.
Proof.
  intros Hi. pose proof (lookup_lt_Some _ _ _ Hi) as Hlt.
  unfold getitem. destruct (Z.ltb_spec (Z.of_nat i) 0) as [?|_]; [lia|].
  cbv zeta. rewrite Nat2Z.id, Hi.
  case_match eqn:Hb; [done|].
  apply andb_false_iff in Hb as [Hb%Z.leb_gt|Hb%Z.ltb_ge]; lia.
Qed.

Lemma getitem_first {A} (x : A) l : getitem (x :: l) 0 = Ok x.
Proof. by apply (getitem_nat _ 0). Qed.

Lemma getitem_second {A} (x y : A) l : getitem (x :: y :: l) 1 = Ok y.
Proof. by apply (getitem_nat _ 1). Qed.

Lemma getitem_last_is_Ok {A} (l : list A) : l ≠ [] → ∃ x, getitem l (-1) = Ok x.
Proof.
  intros Hl. destruct (exists_last Hl) as (l' & x & ->).
  exists x. apply getitem_last.
Qed.

End PyFacts.

(** ** Path normalization *)

Section Normalizer.
Import Py.

Lemma get_pathname_fragment_Ok v p K :
  get_pathname_fragment v p = Ok K → K = join sep (slice_from (split sep p) (-3)).
Proof.
  unfold get_pathname_fragment. destruct v; [case_decide|]; by intros [= <-].
Qed.

Lemma get_pathname_fragment_last3 v p pre a b c :
  split sep p = pre ++ [a; b; c] →
  get_pathname_fragment v p = Ok (a +:+ "/" +:+ b +:+ "/" +:+ c).
Proof.
  intros Hp. unfold get_pathname_fragment. rewrite Hp, slice_from_last3.
  destruct v; [|done].
  rewrite decide_False; [done|]. rewrite length_app. simpl. lia.
Qed.

Lemma get_pathname_fragment_styled_short p :
  length (split sep p) < 3 →
  get_pathname_fragment Styled p
  = Raise (ValueError ("Path should have at least 3 parts: " +:+ p)).
Proof. intros Hp. unfold get_pathname_fragment. by rewrite decide_True. Qed.

Lemma get_pathname_fragment_simple_short p :
  length (split sep p) < 3 → get_pathname_fragment Simple p = Ok p.
Proof.
  intros Hp. unfold get_pathname_fragment.
  by rewrite slice_from_short, join_split.
Qed.

Lemma get_pathname_fragment_simple_total p :
  ∃ K, get_pathname_fragment Simple p = Ok K.
Proof. by eexists. Qed.

(** The styled script succeeds exactly on paths of three or more segments. *)
Lemma get_pathname_fragment_styled_Ok p :
  (∃ K, get_pathname_fragment Styled p = Ok K) ↔ 3 ≤ length (split sep p).
Proof.
  unfold get_pathname_fragment. case_decide; split.
  - by intros [? [=]].
  - lia.
  - lia.
  - by eexists.
Qed.

(** A key of the styled script has exactly three segments. *)
Lemma styled_key_segments p K :
  get_pathname_fragment Styled p = Ok K → ∃ a b c, split sep K = [a; b; c].
Proof.
  intros HK. assert (3 ≤ length (split sep p)) as Hlen.
  { apply get_pathname_fragment_styled_Ok. eauto. }
  destruct (last_three _ Hlen) as (pre & a & b & c & Hp).
  exists a, b, c. apply get_pathname_fragment_Ok in HK as ->.
  rewrite Hp, slice_from_last3. apply split_join; [done|].
  pose proof (split_no_sep sep p) as Hall. rewrite Hp in Hall.
  by apply Forall_app in Hall as [_ Hall].
Qed.

Lemma split_app c s t : split c (s +:+ String c t) = split c s ++ split c t.
Proof.
  induction s as [|x s IH].
  - rewrite append_nil_l. simpl. by rewrite decide_True.
  - rewrite append_cons. simpl. case_decide; [by rewrite IH|].
    rewrite IH. pose proof (split_not_nil c s). by destruct (split c s).
Qed.

(** In the expected layout, a file three levels below the root, the key is
    the path below the root, and the path the renderer copies from,
    [os.path.join(root, key)], is the globbed file itself. *)
Lemma key_below_root v root K a b c :
  split sep K = [a; b; c] → a ≠ "" →
  root ≠ "" → endswith root sep = false →
  get_pathname_fragment v (root +:+ "/" +:+ K) = Ok K
  ∧ os_path_join root K = root +:+ "/" +:+ K.
Proof.
  intros HK Ha Hroot Hend. split.
  - assert (K = a +:+ "/" +:+ b +:+ "/" +:+ c) as HKeq.
    { rewrite <- (join_split sep K), HK. done. }
    rewrite HKeq at 2. apply (get_pathname_fragment_last3 _ _ (split sep root)).
    change ("/" +:+ K) with (String sep K). by rewrite split_app, HK.
  - unfold os_path_join. rewrite Hend.
    rewrite bool_decide_eq_false_2 by done.
    assert (startswith K sep = false) as ->; [|done].
    destruct K as [|x K']; [done|]. simpl in *.
    case_decide; [|by apply bool_decide_eq_false_2].
    by injection HK as <-.
Qed.

End Normalizer.

(** ** Fingerprinting *)

Section Fingerprint.
Context `{PyRuntime}.

Lemma CHUNK_pos : 0 < CHUNK.
Proof. unfold CHUNK. lia. Qed.

Lemma read_loop_S fuel h rest :
  read_loop (S fuel) h rest
  = match take CHUNK rest with
    | [] => Some h
    | chunk => read_loop fuel (hash_update h chunk) (drop CHUNK rest)
    end.
Proof. reflexivity. Qed.

(** The read loop ends, having fed the whole file to the hash object. *)
Lemma read_loop_enough fuel h rest :
  length rest < fuel → read_loop fuel h rest = Some (hash_update h rest).
Proof.
  revert h rest. induction fuel as [|fuel IH]; intros h rest Hlen; [lia|].
  rewrite read_loop_S. pose proof CHUNK_pos as Hpos.
  pose proof (take_drop CHUNK rest) as Htd.
  pose proof (length_take rest CHUNK) as Htake.
  destruct (take CHUNK rest) as [|x chunk] eqn:Hchunk.
  - cbn [length] in Htake. assert (length rest = 0) as Hnil by lia.
    apply length_zero_iff_nil in Hnil. subst rest. by rewrite hash_update_nil.
  - rewrite IH.
    + by rewrite hash_update_app, Htd.
    + rewrite length_drop. cbn [length] in Htake. lia.
Qed.

(** Streaming in chunks of 8192 bytes computes the digest of the content. *)
Lemma compute_file_hash_sha256 data : compute_file_hash data = sha256 data.
Proof.
  unfold compute_file_hash, sha256.
  rewrite read_loop_enough; [done | lia].
Qed.

End Fingerprint.

(** ** Loops in the result monad *)

Section Rfold.
Context {S A : Type} (step : S → A → result S).

Lemma rfold_cons x l s : rfold step (x :: l) s = step s x ≫= rfold step l.
Proof. reflexivity. Qed.

Lemma rfold_app l1 l2 s : rfold step (l1 ++ l2) s = rfold step l1 s ≫= rfold step l2.
Proof.
  revert s. induction l1 as [|x l1 IH]; intros s; [done|].
  rewrite <- app_comm_cons, !rfold_cons. destruct (step s x) as [s'|e]; [apply IH | done].
Qed.

Lemma rfold_app_Ok l1 l2 s s2 :
  rfold step (l1 ++ l2) s = Ok s2 ↔
  ∃ s1, rfold step l1 s = Ok s1 ∧ rfold step l2 s1 = Ok s2.
Proof.
  rewrite rfold_app. destruct (rfold step l1 s) as [s1|e]; simpl.
  - split; [eauto | by intros (? & [= <-] & ?)].
  - split; [done | by intros (? & [=] & ?)].
Qed.

(** A loop whose body never raises on the elements it visits returns. *)
Lemma rfold_total l s :
  (∀ s x, x ∈ l → ∃ s', step s x = Ok s') → ∃ s', rfold step l s = Ok s'.
Proof.
  revert s. induction l as [|x l IH]; intros s Hstep; [by eexists|].
  destruct (Hstep s x) as [s' Hs']; [by left|].
  rewrite rfold_cons, Hs'. apply IH. intros ???. apply Hstep. by right.
Qed.

(** A loop that returns ran its body without an exception on each element. *)
Lemma rfold_Ok_each l s s' :
  rfold step l s = Ok s' → ∀ x, x ∈ l → ∃ s1 s2, step s1 x = Ok s2.
Proof.
  revert s. induction l as [|y l IH]; intros s Hrun x Hx; [by apply elem_of_nil in Hx|].
  rewrite rfold_cons in Hrun. destruct (step s y) as [s1|e] eqn:Hy; [|done].
  apply elem_of_cons in Hx as [->|Hx]; [eauto | by eapply IH].
Qed.

End Rfold.

(** ** The two scanning loops *)

Section Scan.
Context `{PyRuntime} (v : variant).

Lemma keyed_elem_of files keys K :
  keyed v files keys → K ∈ keys ↔ ∃ f, f ∈ files ∧ key_of v f = Ok K.
Proof.
  induction 1 as [|f k files keys Hk _ IH].
  - split; [by intros ?%elem_of_nil | by intros (? & ?%elem_of_nil & _)].
  - rewrite elem_of_cons, IH. split.
    + intros [->|(f' & ? & ?)]; [exists f | exists f']; split; try done; by constructor.
    + intros (f' & [->|?]%elem_of_cons & Hf'); [left; congruence | right; eauto].
Qed.

Lemma keyed_app files1 files2 keys1 keys2 :
  keyed v files1 keys1 → keyed v files2 keys2 → keyed v (files1 ++ files2) (keys1 ++ keys2).
Proof. apply Forall2_app. Qed.

Lemma keyed_total files :
  (∀ f, f ∈ files → ∃ k, key_of v f = Ok k) → ∃ keys, keyed v files keys.
Proof.
  induction files as [|f files IH]; intros Hall; [exists []; constructor|].
  destruct (Hall f) as [k Hk]; [by left|].
  destruct IH as [keys Hkeys]; [intros; apply Hall; by right|].
  exists (k :: keys). by constructor.
Qed.

Lemma keyed_functional files keys1 keys2 :
  keyed v files keys1 → keyed v files keys2 → keys1 = keys2.
Proof.
  intros H1. revert keys2. induction H1 as [|f k files keys Hk _ IH]; intros keys2 H2.
  - by inversion H2.
  - inversion H2 as [|?? ? keys' Hk' Hrest]; subst. f_equal; [congruence | by apply IH].
Qed.

(** *** First loop *)

Lemma scan_before_step_Ok st f st' :
  scan_before_step v st f = Ok st' ↔
  ∃ k, key_of v f = Ok k
       ∧ st' = BeforeScan
                 (<[k := compute_file_hash (content f)]> (before_screenshots st))
                 (paths_before st ++ [k]).
Proof.
  unfold scan_before_step, key_of.
  destruct (get_pathname_fragment v (path f)) as [k|e]; simpl.
  - split; [intros [= <-]; eauto | by intros (? & [= <-] & ->)].
  - split; [done | by intros (? & [=] & _)].
Qed.

Lemma scan_before_from_paths files st b :
  rfold (scan_before_step v) files st = Ok b →
  ∃ keys, keyed v files keys ∧ paths_before b = paths_before st ++ keys.
Proof.
  revert st. induction files as [|f files IH]; intros st Hrun.
  - injection Hrun as <-. exists []. split; [constructor | by rewrite app_nil_r].
  - rewrite rfold_cons in Hrun.
    destruct (scan_before_step v st f) as [st1|e] eqn:Hstep; [|done].
    apply scan_before_step_Ok in Hstep as (k & Hk & ->).
    apply IH in Hrun as (keys & Hkeys & ->). simpl.
    exists (k :: keys). split; [by constructor | by rewrite <- app_assoc].
Qed.

(** The keys of the before map are the elements of [paths_before]. *)
Lemma scan_before_from_dom files st b :
  dom (before_screenshots st) = list_to_set (paths_before st) →
  rfold (scan_before_step v) files st = Ok b →
  dom (before_screenshots b) = list_to_set (paths_before b).
Proof.
  revert st. induction files as [|f files IH]; intros st Hdom Hrun.
  - by injection Hrun as <-.
  - rewrite rfold_cons in Hrun.
    destruct (scan_before_step v st f) as [st1|e] eqn:Hstep; [|done].
    apply scan_before_step_Ok in Hstep as (k & Hk & ->).
    apply IH in Hrun; [done|]. simpl.
    rewrite dom_insert_L, Hdom, list_to_set_app_L. simpl.
    rewrite (right_id_L ∅ (∪)). apply (comm_L (∪)).
Qed.

(** Files that do not reduce to [K] leave the entry of [K] alone. *)
Lemma scan_before_from_keep files st b K :
  rfold (scan_before_step v) files st = Ok b →
  (∀ f, f ∈ files → key_of v f ≠ Ok K) →
  before_screenshots b !! K = before_screenshots st !! K.
Proof.
  revert st. induction files as [|f files IH]; intros st Hrun Hno.
  - by injection Hrun as <-.
  - rewrite rfold_cons in Hrun.
    destruct (scan_before_step v st f) as [st1|e] eqn:Hstep; [|done].
    apply scan_before_step_Ok in Hstep as (k & Hk & ->).
    rewrite (IH _ Hrun) by (intros; apply Hno; by right). simpl.
    apply lookup_insert_ne. intros ->. by apply (Hno f); [left|].
Qed.

Lemma scan_before_paths files b :
  scan_before v files = Ok b → keyed v files (paths_before b).
Proof. intros (keys & Hkeys & ->)%scan_before_from_paths. done. Qed.

Lemma scan_before_dom files b :
  scan_before v files = Ok b →
  dom (before_screenshots b) = list_to_set (paths_before b).
Proof. apply scan_before_from_dom. simpl. by rewrite dom_empty_L. Qed.

Lemma scan_before_total files :
  (∀ f, f ∈ files → ∃ k, key_of v f = Ok k) → ∃ b, scan_before v files = Ok b.
Proof.
  intros Hall. apply rfold_total. intros st f [k Hk]%Hall.
  eexists. apply scan_before_step_Ok. eauto.
Qed.

(** Last write wins: the entry of [K] is the digest of the last file that
    reduces to [K]. *)
Lemma scan_before_last l1 f l2 b K :
  scan_before v (l1 ++ f :: l2) = Ok b →
  key_of v f = Ok K →
  (∀ f', f' ∈ l2 → key_of v f' ≠ Ok K) →
  before_screenshots b !! K = Some (compute_file_hash (content f)).
Proof.
  intros Hrun HK Hno. apply rfold_app_Ok in Hrun as (s1 & _ & Hrun).
  rewrite rfold_cons in Hrun.
  destruct (scan_before_step v s1 f) as [s2|e] eqn:Hstep; [|done].
  apply scan_before_step_Ok in Hstep as (k & Hk & ->).
  rewrite (scan_before_from_keep _ _ _ _ Hrun Hno). simpl.
  assert (k = K) as -> by congruence. apply lookup_insert_eq.
Qed.

(** Among the files that reduce to [K] there is a last one. *)
Lemma last_with_key (files : list file) (K : string) :
  (∃ f, f ∈ files ∧ key_of v f = Ok K) →
  ∃ l1 fb l2, files = l1 ++ fb :: l2 ∧ key_of v fb = Ok K
              ∧ ∀ f, f ∈ l2 → key_of v f ≠ Ok K.
Proof.
  induction files as [|x files IH]; intros (f & Hf & Hk).
  - by apply elem_of_nil in Hf.
  - destruct (decide (Exists (λ f, key_of v f = Ok K) files)) as [Hex|Hno].
    + apply Exists_exists in Hex. destruct (IH Hex) as (l1 & fb & l2 & -> & Hfb & Hl2).
      by exists (x :: l1), fb, l2.
    + exists [], x, files. split; [done|].
      assert (∀ g, g ∈ files → key_of v g ≠ Ok K) as Hfiles.
      { intros g Hg Hgk. apply Hno, Exists_exists. eauto. }
      split; [|done].
      apply elem_of_cons in Hf as [->|Hf]; [done|]. by destruct (Hfiles f Hf).
Qed.

Lemma scan_before_lookup_None files b K :
  scan_before v files = Ok b →
  before_screenshots b !! K = None ↔ ∀ f, f ∈ files → key_of v f ≠ Ok K.
Proof.
  intros Hrun. rewrite <- not_elem_of_dom, (scan_before_dom _ _ Hrun).
  rewrite elem_of_list_to_set, (keyed_elem_of _ _ _ (scan_before_paths _ _ Hrun)).
  split; [intros Hno f Hf Hk; apply Hno; eauto | intros Hno (f & Hf & Hk); by eapply Hno].
Qed.

End Scan.

Section ScanAfter.
Context `{PyRuntime} (v : variant) (m : gmap string string).

(** *** Second loop *)

Lemma scan_after_step_key st f k :
  key_of v f = Ok k →
  scan_after_step v m st f
  = Ok (AfterScan
          (only_in_after st ++ filter (λ k, m !! k = None) [k])
          (diffs st ++ omap (differs v m) [f])
          (paths_after st ++ [k])).
Proof.
  intros Hk. unfold scan_after_step.
  change (get_pathname_fragment v (path f)) with (key_of v f). rewrite Hk.
  unfold mbind, mret, result_bind, result_ret. f_equal.
  rewrite filter_cons, filter_nil. cbn [omap list_omap]. unfold differs. rewrite Hk.
  destruct (m !! k) as [h|].
  - rewrite (decide_False (P := Some h = None)) by done.
    destruct (decide (h ≠ compute_file_hash (content f))); simpl;
      rewrite ?app_nil_r; [done | by destruct st].
  - rewrite (decide_True (P := None = None)) by done. simpl. by rewrite ?app_nil_r.
Qed.

Lemma scan_after_step_Ok st f st' :
  scan_after_step v m st f = Ok st' ↔
  ∃ k, key_of v f = Ok k
       ∧ st' = AfterScan
                 (only_in_after st ++ filter (λ k, m !! k = None) [k])
                 (diffs st ++ omap (differs v m) [f])
                 (paths_after st ++ [k]).
Proof.
  split.
  - destruct (key_of v f) as [k|e] eqn:Hk.
    + rewrite (scan_after_step_key _ _ _ Hk). intros [= <-]. eauto.
    + unfold scan_after_step.
      change (get_pathname_fragment v (path f)) with (key_of v f). by rewrite Hk.
  - intros (k & Hk & ->). by apply scan_after_step_key.
Qed.

Lemma scan_after_from files st a :
  rfold (scan_after_step v m) files st = Ok a →
  ∃ keys, keyed v files keys
          ∧ paths_after a = paths_after st ++ keys
          ∧ only_in_after a = only_in_after st ++ filter (λ k, m !! k = None) keys
          ∧ diffs a = diffs st ++ omap (differs v m) files.
Proof.
  revert st. induction files as [|f files IH]; intros st Hrun.
  - injection Hrun as <-. exists []. rewrite !app_nil_r. by repeat split; try constructor.
  - rewrite rfold_cons in Hrun.
    destruct (scan_after_step v m st f) as [st1|e] eqn:Hstep; [|done].
    apply scan_after_step_Ok in Hstep as (k & Hk & ->).
    apply IH in Hrun as (keys & Hkeys & -> & -> & ->).
    cbn [only_in_after diffs paths_after].
    exists (k :: keys). rewrite <- !app_assoc. repeat split.
    + by constructor.
    + f_equal. by rewrite <- filter_app.
    + f_equal. by rewrite <- omap_app.
Qed.

Lemma scan_after_Ok files a :
  scan_after v m files = Ok a →
  keyed v files (paths_after a)
  ∧ only_in_after a = filter (λ k, m !! k = None) (paths_after a)
  ∧ diffs a = omap (differs v m) files.
Proof. intros (keys & Hkeys & -> & -> & ->)%scan_after_from. done. Qed.

Lemma scan_after_total files :
  (∀ f, f ∈ files → ∃ k, key_of v f = Ok k) → ∃ a, scan_after v m files = Ok a.
Proof.
  intros Hall. apply rfold_total. intros st f [k Hk]%Hall.
  eexists. apply scan_after_step_Ok. eauto.
Qed.

Lemma differs_Some f K :
  differs v m f = Some K ↔
  key_of v f = Ok K ∧ ∃ h, m !! K = Some h ∧ h ≠ compute_file_hash (content f).
Proof.
  unfold differs. destruct (key_of v f) as [k|e]; [|by split; [|intros [[=] _]]].
  destruct (m !! k) as [h|] eqn:Hm.
  - case_decide as Hh.
    + split; [intros [= <-]; eauto | by intros [[= <-] _]].
    + split; [done|]. intros [[= <-] (h' & Hh' & Hne)]. congruence.
  - split; [done|]. intros [[= <-] (h' & Hh' & _)]. congruence.
Qed.

Lemma falls_through_Some f K :
  falls_through v m f = Some K ↔
  key_of v f = Ok K ∧ m !! K = Some (compute_file_hash (content f)).
Proof.
  unfold falls_through. destruct (key_of v f) as [k|e]; [|by split; [|intros [[=] _]]].
  case_decide as Hh.
  - split; [by intros [= <-] | by intros [[= <-] _]].
  - split; [done|]. intros [[= <-] ?]. done.
Qed.

End ScanAfter.

(** ** The diff engine *)

Section Engine.
Context `{PyRuntime} (v : variant).

Lemma diff_engine_Ok before after d :
  diff_engine v before after = Ok d ↔
  ∃ b a, scan_before v before = Ok b
         ∧ scan_after v (before_screenshots b) after = Ok a
         ∧ d = DiffResult (list_to_set (paths_before b) ∖ list_to_set (paths_after a))
                          (only_in_after a) (diffs a).
Proof.
  unfold diff_engine. split.
  - destruct (scan_before v before) as [b|e] eqn:Hb; [simpl | done].
    destruct (scan_after v (before_screenshots b) after) as [a|e] eqn:Ha; [simpl | done].
    intros [= <-]. eauto.
  - intros (b & a & -> & Ha & ->). simpl. by rewrite Ha.
Qed.

(** The engine returns whenever every globbed path normalizes. *)
Lemma diff_engine_total before after :
  (∀ f, f ∈ before ++ after → ∃ k, key_of v f = Ok k) →
  ∃ d, diff_engine v before after = Ok d.
Proof.
  intros Hall.
  destruct (scan_before_total v before) as [b Hb].
  { intros f Hf. apply Hall, elem_of_app. by left. }
  destruct (scan_after_total v (before_screenshots b) after) as [a Ha].
  { intros f Hf. apply Hall, elem_of_app. by right. }
  eexists. apply diff_engine_Ok. eauto.
Qed.

(** And when it returns, every globbed path did normalize. *)
Lemma diff_engine_keys before after d :
  diff_engine v before after = Ok d →
  ∃ kb ka, keyed v before kb ∧ keyed v after ka.
Proof.
  intros (b & a & Hb & Ha & _)%diff_engine_Ok.
  apply scan_before_paths in Hb. apply scan_after_Ok in Ha as [Ha _]. eauto.
Qed.

Section Buckets.
Context (before after : list file) (d : diff_result).
Context (Hrun : diff_engine v before after = Ok d).

Lemma elem_of_onlyInBefore K :
  K ∈ onlyInBefore d ↔
  (∃ f, f ∈ before ∧ key_of v f = Ok K) ∧ ¬ (∃ f, f ∈ after ∧ key_of v f = Ok K).
Proof using Hrun.
  apply diff_engine_Ok in Hrun as (b & a & Hb & Ha & ->). simpl.
  apply scan_before_paths in Hb. apply scan_after_Ok in Ha as [Ha _].
  by rewrite elem_of_difference, !elem_of_list_to_set,
    (keyed_elem_of _ _ _ _ Hb), (keyed_elem_of _ _ _ _ Ha).
Qed.

Lemma elem_of_onlyInAfter K :
  K ∈ onlyInAfter d ↔
  (∃ f, f ∈ after ∧ key_of v f = Ok K) ∧ ¬ (∃ f, f ∈ before ∧ key_of v f = Ok K).
Proof using Hrun.
  apply diff_engine_Ok in Hrun as (b & a & Hb & Ha & ->). simpl.
  apply scan_after_Ok in Ha as (Ha & -> & _).
  rewrite list_elem_of_filter, (keyed_elem_of _ _ _ _ Ha),
    (scan_before_lookup_None _ _ _ _ Hb).
  split.
  - intros [Hno Hin]. split; [done|]. intros (f & Hf & Hk). by eapply Hno.
  - intros [Hin Hno]. split; [|done]. intros f Hf Hk. apply Hno. eauto.
Qed.

Lemma elem_of_changed K b :
  scan_before v before = Ok b →
  K ∈ changed d ↔
  ∃ f, f ∈ after ∧ key_of v f = Ok K
       ∧ ∃ h, before_screenshots b !! K = Some h ∧ h ≠ sha256 (content f).
Proof using Hrun.
  intros Hb. apply diff_engine_Ok in Hrun as (b' & a & Hb' & Ha & ->). simpl.
  assert (b' = b) as -> by congruence.
  apply scan_after_Ok in Ha as (_ & _ & ->).
  rewrite list_elem_of_omap. setoid_rewrite differs_Some.
  by setoid_rewrite compute_file_hash_sha256.
Qed.

Lemma elem_of_unchanged K b :
  scan_before v before = Ok b →
  K ∈ unchanged v before after ↔
  ∃ f, f ∈ after ∧ key_of v f = Ok K
       ∧ before_screenshots b !! K = Some (sha256 (content f)).
Proof.
  intros Hb. unfold unchanged. rewrite Hb.
  rewrite list_elem_of_omap. setoid_rewrite falls_through_Some.
  by setoid_rewrite compute_file_hash_sha256.
Qed.

Lemma changed_in_after K :
  K ∈ changed d → ∃ f, f ∈ after ∧ key_of v f = Ok K.
Proof using Hrun.
  pose proof Hrun as (b & a & Hb & _)%diff_engine_Ok.
  rewrite (elem_of_changed _ _ Hb). intros (f & ? & ? & _). eauto.
Qed.

Lemma changed_in_before K :
  K ∈ changed d → ∃ f, f ∈ before ∧ key_of v f = Ok K.
Proof using Hrun.
  pose proof Hrun as (b & a & Hb & _)%diff_engine_Ok.
  rewrite (elem_of_changed _ _ Hb). intros (f & ? & ? & h & Hh & _).
  apply elem_of_dom_2 in Hh. rewrite (scan_before_dom _ _ _ Hb) in Hh.
  apply elem_of_list_to_set in Hh.
  by apply (keyed_elem_of _ _ _ _ (scan_before_paths _ _ _ Hb)) in Hh.
Qed.

End Buckets.
End Engine.

(** * The specification's claims *)

(** C6 (as amended): in both scripts a path with at least three segments
    reduces to its last three segments joined by the separator, e.g.
    "a/en/tools_views/Foo.png" gives "en/tools_views/Foo.png".  On a path
    with fewer than three segments only the styled script raises its
    [ValueError]; the simpler script validates nothing and returns the join
    of all the segments, which is the path itself. *)
Theorem get_pathname_fragment_spec (v : variant) (p : string) :
  (∀ pre a b c, Py.split Py.sep p = pre ++ [a; b; c] →
     get_pathname_fragment v p = Ok (a +:+ "/" +:+ b +:+ "/" +:+ c))
  ∧ (3 ≤ length (Py.split Py.sep p) → ∃ K, get_pathname_fragment v p = Ok K)
  ∧ get_pathname_fragment v "a/en/tools_views/Foo.png" = Ok "en/tools_views/Foo.png"
  ∧ (length (Py.split Py.sep p) < 3 →
       get_pathname_fragment Styled p
       = Raise (ValueError ("Path should have at least 3 parts: " +:+ p))
       ∧ get_pathname_fragment Simple p = Ok p).
Proof.
  split; [|split; [|split]].
  - intros pre a b c Hp. by eapply get_pathname_fragment_last3.
  - intros (pre & a & b & c & Hp)%last_three. eexists.
    by eapply get_pathname_fragment_last3.
  - by destruct v.
  - intros Hp. split.
    + by apply get_pathname_fragment_styled_short.
    + by apply get_pathname_fragment_simple_short.
Qed.

(** C6 as stated fails on the simpler script: the two-segment path
    "tools_views/Foo.png" raises nothing and comes back as a key. *)
Lemma simple_variant_accepts_short_path :
  length (Py.split Py.sep "tools_views/Foo.png") = 2
  ∧ get_pathname_fragment Simple "tools_views/Foo.png" = Ok "tools_views/Foo.png"
  ∧ ¬ ∃ e, get_pathname_fragment Simple "tools_views/Foo.png" = Raise e.
Proof. split; [done|]. split; [done|]. by intros [e ?]. Qed.

Section EngineClaims.
Context `{PyRuntime} (v : variant).

(** C2: a key that a "before" file reduces to, and no "after" file does, is
    in [onlyInBefore] and in no other bucket (nor among the unchanged). *)
Theorem only_before_key_is_removed (before after : list file) (d : diff_result)
    (fb : file) (K : string) :
  diff_engine v before after = Ok d →
  fb ∈ before → key_of v fb = Ok K →
  (∀ fa, fa ∈ after → key_of v fa ≠ Ok K) →
  K ∈ onlyInBefore d ∧ (K ∉ onlyInAfter d) ∧ (K ∉ changed d)
  ∧ (K ∉ unchanged v before after).
Proof.
  intros Hrun Hfb HK Hno.
  assert (¬ ∃ f, f ∈ after ∧ key_of v f = Ok K) as Hno'.
  { intros (f & Hf & Hk). by eapply Hno. }
  pose proof Hrun as (b & a & Hb & _)%diff_engine_Ok.
  repeat split.
  - apply (elem_of_onlyInBefore _ _ _ _ Hrun). eauto.
  - rewrite (elem_of_onlyInAfter _ _ _ _ Hrun). tauto.
  - intros Hc. by apply (changed_in_after _ _ _ _ Hrun) in Hc.
  - rewrite (elem_of_unchanged _ _ _ _ _ Hb). intros (f & ? & ? & _). eauto.
Qed.

(** C3: a key that an "after" file reduces to, and no "before" file does,
    is in [onlyInAfter] and in no other bucket (nor among the unchanged). *)
Theorem only_after_key_is_added (before after : list file) (d : diff_result)
    (fa : file) (K : string) :
  diff_engine v before after = Ok d →
  fa ∈ after → key_of v fa = Ok K →
  (∀ fb, fb ∈ before → key_of v fb ≠ Ok K) →
  K ∈ onlyInAfter d ∧ (K ∉ onlyInBefore d) ∧ (K ∉ changed d)
  ∧ (K ∉ unchanged v before after).
Proof.
  intros Hrun Hfa HK Hno.
  assert (¬ ∃ f, f ∈ before ∧ key_of v f = Ok K) as Hno'.
  { intros (f & Hf & Hk). by eapply Hno. }
  pose proof Hrun as (b & a & Hb & _)%diff_engine_Ok.
  repeat split.
  - apply (elem_of_onlyInAfter _ _ _ _ Hrun). eauto.
  - rewrite (elem_of_onlyInBefore _ _ _ _ Hrun). intros [_ []]. eauto.
  - intros Hc. by apply (changed_in_before _ _ _ _ Hrun) in Hc.
  - rewrite (elem_of_unchanged _ _ _ _ _ Hb). intros (f & _ & _ & Hf).
    by rewrite (proj2 (scan_before_lookup_None _ _ _ K Hb) Hno) in Hf.
Qed.

(** The entry of a key is the digest of the last "before" file [fb] that
    reduces to it, so it is with [fb] that the second loop compares: the key
    is in [changed] as soon as an "after" file of the key has another
    digest, and in no bucket when "after" files reduce to it and all of
    them have the digest of [fb]. *)
Lemma last_before_file_decides_changed (l1 l2 after : list file)
    (d : diff_result) (fb : file) (K : string) :
  diff_engine v (l1 ++ fb :: l2) after = Ok d →
  key_of v fb = Ok K →
  (∀ f, f ∈ l2 → key_of v f ≠ Ok K) →
  (∀ fa, fa ∈ after → key_of v fa = Ok K →
     sha256 (content fa) ≠ sha256 (content fb) → K ∈ changed d)
  ∧ ((∃ fa, fa ∈ after ∧ key_of v fa = Ok K) →
     (∀ fa, fa ∈ after → key_of v fa = Ok K →
        sha256 (content fa) = sha256 (content fb)) →
     (K ∉ onlyInBefore d) ∧ (K ∉ onlyInAfter d) ∧ (K ∉ changed d)).
Proof.
  intros Hrun HK Hlast.
  pose proof Hrun as (b & a & Hb & _)%diff_engine_Ok.
  pose proof (scan_before_last _ _ _ _ _ _ Hb HK Hlast) as Hlookup.
  rewrite compute_file_hash_sha256 in Hlookup.
  split.
  - intros fa Hfa Hka Hne. apply (elem_of_changed _ _ _ _ Hrun _ _ Hb).
    exists fa. repeat split; [done..|]. exists (sha256 (content fb)). split; [done|].
    congruence.
  - intros Hex Hall. repeat split.
    + rewrite (elem_of_onlyInBefore _ _ _ _ Hrun). tauto.
    + rewrite (elem_of_onlyInAfter _ _ _ _ Hrun). intros [_ []].
      exists fb. split; [|done]. apply elem_of_app. right. by left.
    + rewrite (elem_of_changed _ _ _ _ Hrun _ _ Hb).
      intros (fa & Hfa & Hka & h & Hh & Hne).
      rewrite Hlookup in Hh. injection Hh as <-. by rewrite (Hall fa) in Hne.
Qed.

(** C1: let a file [fb] under the "before" root and a file [fa] under the
    "after" root reduce to [K], each being the one file of its tree that
    does (or, more generally, every other one having the same bytes).  If
    the digests of the two files differ, [K] is in [changed] and in no other
    bucket; the bytes of the two files differ exactly when their digests do
    unless the two files collide under SHA-256, so then [K] is in [changed]
    when the bytes differ.  If the bytes are identical, [K] is in none of
    the three reported buckets. *)
Theorem differing_files_are_changed (before after : list file)
    (d : diff_result) (fb fa : file) (K : string) :
  diff_engine v before after = Ok d →
  fb ∈ before → key_of v fb = Ok K →
  (∀ f, f ∈ before → key_of v f = Ok K → content f = content fb) →
  fa ∈ after → key_of v fa = Ok K →
  (∀ f, f ∈ after → key_of v f = Ok K → content f = content fa) →
  (sha256 (content fb) ≠ sha256 (content fa) →
     K ∈ changed d ∧ (K ∉ onlyInBefore d) ∧ (K ∉ onlyInAfter d))
  ∧ ((sha256 (content fb) = sha256 (content fa) → content fb = content fa) →
     content fb ≠ content fa → K ∈ changed d)
  ∧ (content fb = content fa →
     (K ∉ onlyInBefore d) ∧ (K ∉ onlyInAfter d) ∧ (K ∉ changed d)).
Proof.
  intros Hrun Hfb Hkb Hb1 Hfa Hka Ha1.
  destruct (last_with_key v before K) as (l1 & g & l2 & -> & Hg & Hl2); [eauto|].
  assert (content g = content fb) as Hgb.
  { apply Hb1; [|done]. apply elem_of_app. right. by left. }
  destruct (last_before_file_decides_changed _ _ _ _ _ _ Hrun Hg Hl2) as [Hdiff Hsame].
  rewrite Hgb in Hdiff, Hsame.
  assert (sha256 (content fb) ≠ sha256 (content fa) → K ∈ changed d) as Hch.
  { intros Hne. apply (Hdiff fa Hfa Hka). congruence. }
  split; [|split].
  - intros Hne. split; [by apply Hch|]. split.
    + rewrite (elem_of_onlyInBefore _ _ _ _ Hrun). intros [_ []]. eauto.
    + rewrite (elem_of_onlyInAfter _ _ _ _ Hrun). intros [_ []]. eauto.
  - intros Hcoll Hne. apply Hch. intros Heq. by apply Hne, Hcoll.
  - intros Heq. apply Hsame; [eauto|].
    intros f Hf Hkf. by rewrite (Ha1 f Hf Hkf), Heq.
Qed.

(** The branches of the second loop, file by file: every key that a file of
    either tree reduces to is in [onlyInBefore], in [onlyInAfter], in
    [changed], or is the key of an "after" file that took the branch that
    appends nothing.  The three reported buckets are pairwise disjoint, and
    a key is in [changed] while one of its "after" files took the last
    branch only when two "after" files with different digests reduce to
    it. *)
Lemma classification_of_keys (before after : list file) (d : diff_result) :
  diff_engine v before after = Ok d →
  (∀ K, (∃ f, f ∈ before ++ after ∧ key_of v f = Ok K) →
     K ∈ onlyInBefore d ∨ K ∈ onlyInAfter d ∨ K ∈ changed d
     ∨ K ∈ unchanged v before after)
  ∧ (∀ K, ¬ (K ∈ onlyInBefore d ∧ K ∈ onlyInAfter d))
  ∧ (∀ K, ¬ (K ∈ onlyInBefore d ∧ K ∈ changed d))
  ∧ (∀ K, ¬ (K ∈ onlyInAfter d ∧ K ∈ changed d))
  ∧ (∀ K, ¬ (K ∈ onlyInBefore d ∧ K ∈ unchanged v before after))
  ∧ (∀ K, ¬ (K ∈ onlyInAfter d ∧ K ∈ unchanged v before after))
  ∧ (∀ K, K ∈ changed d → K ∈ unchanged v before after →
       ∃ f1 f2, f1 ∈ after ∧ f2 ∈ after
                ∧ key_of v f1 = Ok K ∧ key_of v f2 = Ok K
                ∧ sha256 (content f1) ≠ sha256 (content f2)).
Proof.
  intros Hrun.
  pose proof Hrun as (b & a & Hb & Ha & _)%diff_engine_Ok.
  pose proof Ha as [Hkeys _]%scan_after_Ok.
  pose proof (elem_of_onlyInBefore _ _ _ _ Hrun) as HB.
  pose proof (elem_of_onlyInAfter _ _ _ _ Hrun) as HA.
  pose proof (λ K, elem_of_changed _ _ _ _ Hrun K _ Hb) as HC.
  pose proof (λ K, elem_of_unchanged _ before after K _ Hb) as HU.
  pose proof (λ K, scan_before_lookup_None _ _ _ K Hb) as HN.
  pose proof (λ K, keyed_elem_of _ _ _ K Hkeys) as HK.
  split; [|repeat split].
  - intros K (f & Hf & Hk).
    destruct (decide (K ∈ paths_after a)) as [Hin|Hout].
    + apply HK in Hin as (fa & Hfa & Hka).
      destruct (before_screenshots b !! K) as [h|] eqn:Hh.
      * destruct (decide (h = sha256 (content fa))) as [->|Hne].
        -- do 3 right. apply HU. eauto.
        -- do 2 right. left. apply HC. exists fa. eauto.
      * right. left. apply HA. split; [eauto|].
        intros (f' & Hf' & Hk'). by eapply HN.
    + left. apply HB. rewrite <- HK. split; [|done].
      apply elem_of_app in Hf as [Hf|Hf]; [eauto|].
      destruct Hout. apply HK. eauto.
  - intros K [[_ Hno]%HB [Hin _]%HA]. done.
  - intros K [[_ Hno]%HB Hc]. by apply (changed_in_after _ _ _ _ Hrun) in Hc.
  - intros K [[_ Hno]%HA Hc]. by apply (changed_in_before _ _ _ _ Hrun) in Hc.
  - intros K [[_ Hno]%HB (f & Hf & Hk & _)%HU]. apply Hno. eauto.
  - intros K [[_ Hno]%HA (f & Hf & Hk & Hh)%HU].
    assert (before_screenshots b !! K = None) as Hnone; [|congruence].
    apply HN. intros f' Hf' Hk'. apply Hno. eauto.
  - intros K (f1 & Hf1 & Hk1 & h & Hh & Hne)%HC (f2 & Hf2 & Hk2 & Hh2)%HU.
    exists f1, f2. repeat split; try done. congruence.
Qed.

(** C4: every key that a file of either tree reduces to is in exactly one
    of the four classes [onlyInBefore], [onlyInAfter], [changed] and the
    unlisted keys; in particular the three reported buckets are pairwise
    disjoint.  The unlisted keys are, as the specification says, those
    present in both trees with equal hashes: each "after" file of the key
    has the digest that the before map records for it. *)
Theorem every_key_in_exactly_one_class (before after : list file) (d : diff_result) :
  diff_engine v before after = Ok d →
  (∀ K, (∃ f, f ∈ before ++ after ∧ key_of v f = Ok K) →
     (K ∈ onlyInBefore d ∧ (K ∉ onlyInAfter d) ∧ (K ∉ changed d) ∧ ¬ unlisted d K)
     ∨ ((K ∉ onlyInBefore d) ∧ K ∈ onlyInAfter d ∧ (K ∉ changed d) ∧ ¬ unlisted d K)
     ∨ ((K ∉ onlyInBefore d) ∧ (K ∉ onlyInAfter d) ∧ K ∈ changed d ∧ ¬ unlisted d K)
     ∨ ((K ∉ onlyInBefore d) ∧ (K ∉ onlyInAfter d) ∧ (K ∉ changed d) ∧ unlisted d K))
  ∧ (∀ K, ¬ (K ∈ onlyInBefore d ∧ K ∈ onlyInAfter d))
  ∧ (∀ K, ¬ (K ∈ onlyInBefore d ∧ K ∈ changed d))
  ∧ (∀ K, ¬ (K ∈ onlyInAfter d ∧ K ∈ changed d))
  ∧ (∀ K b, scan_before v before = Ok b →
       (∃ f, f ∈ before ++ after ∧ key_of v f = Ok K) →
       (unlisted d K ↔
        (∃ f, f ∈ before ∧ key_of v f = Ok K)
        ∧ (∃ f, f ∈ after ∧ key_of v f = Ok K)
        ∧ ∀ fa, fa ∈ after → key_of v fa = Ok K →
            before_screenshots b !! K = Some (sha256 (content fa)))).
Proof.
  intros Hrun.
  pose proof (elem_of_onlyInBefore _ _ _ _ Hrun) as HB.
  pose proof (elem_of_onlyInAfter _ _ _ _ Hrun) as HA.
  assert (∀ K, ¬ (K ∈ onlyInBefore d ∧ K ∈ onlyInAfter d)) as HBA.
  { intros K [[_ Hno]%HB [Hin _]%HA]. done. }
  assert (∀ K, ¬ (K ∈ onlyInBefore d ∧ K ∈ changed d)) as HBC.
  { intros K [[_ Hno]%HB Hc]. by apply (changed_in_after _ _ _ _ Hrun) in Hc. }
  assert (∀ K, ¬ (K ∈ onlyInAfter d ∧ K ∈ changed d)) as HAC.
  { intros K [[_ Hno]%HA Hc]. by apply (changed_in_before _ _ _ _ Hrun) in Hc. }
  split; [|split; [done|split; [done|split; [done|]]]].
  - intros K _. unfold unlisted.
    destruct (decide (K ∈ onlyInBefore d)) as [H1|H1];
      destruct (decide (K ∈ onlyInAfter d)) as [H2|H2];
      destruct (decide (K ∈ changed d)) as [H3|H3];
      try (by destruct (HBA K)); try (by destruct (HBC K)); try (by destruct (HAC K)).
    + left. repeat split; try done. by intros (? & _).
    + right. left. repeat split; try done. by intros (_ & ? & _).
    + right. right. left. repeat split; try done. by intros (_ & _ & ?).
    + right. right. right. done.
  - intros K b Hb (f & Hf & Hk).
    pose proof (elem_of_changed _ _ _ _ Hrun K _ Hb) as HC.
    unfold unlisted. split.
    + intros (H1 & H2 & H3).
      assert (∃ f, f ∈ after ∧ key_of v f = Ok K) as Hafter.
      { destruct (decide (Exists (λ f, key_of v f = Ok K) after)) as [Hin|Hout].
        - by apply Exists_exists in Hin.
        - destruct H1. apply HB. split.
          + apply elem_of_app in Hf as [Hf|Hf]; [eauto|].
            destruct Hout. apply Exists_exists. eauto.
          + intros Hex. by apply Hout, Exists_exists. }
      assert (∃ f, f ∈ before ∧ key_of v f = Ok K) as Hbefore.
      { destruct (decide (Exists (λ f, key_of v f = Ok K) before)) as [Hin|Hout].
        - by apply Exists_exists in Hin.
        - destruct H2. apply HA. split; [done|].
          intros Hex. by apply Hout, Exists_exists. }
      split; [done|]. split; [done|]. intros fa Hfa Hka.
      destruct (before_screenshots b !! K) as [h|] eqn:Hh.
      * destruct (decide (h = sha256 (content fa))) as [->|Hne]; [done|].
        destruct H3. apply HC. eauto 6.
      * destruct Hbefore as (fb & Hfb & Hkb).
        destruct (proj1 (scan_before_lookup_None _ _ _ K Hb) Hh fb Hfb Hkb).
    + intros (Hbefore & Hafter & Heq). split; [|split].
      * intros [_ Hno]%HB. done.
      * intros [_ Hno]%HA. done.
      * intros (fa & Hfa & Hka & h & Hh & Hne)%HC.
        rewrite (Heq fa Hfa Hka) in Hh. by injection Hh as <-.
Qed.

(** C9: when several "before" files reduce to one key, the before map ends
    with the digest of the last enumerated one, and no error is raised on
    account of the duplicates: both loops return as soon as every path
    normalizes.  The decision for the key is made against that last file:
    the key is in [changed] exactly when an "after" file reducing to it
    differs in digest from the last file, and an "after" file of the key
    takes the branch that appends nothing exactly when it has the digest of
    the last file. *)
Theorem before_map_last_write_wins (l1 l2 after : list file) (fb : file) (K : string) :
  key_of v fb = Ok K →
  (∀ f, f ∈ l2 → key_of v f ≠ Ok K) →
  (∀ f, f ∈ (l1 ++ fb :: l2) ++ after → ∃ k, key_of v f = Ok k) →
  ∃ b d, scan_before v (l1 ++ fb :: l2) = Ok b
       ∧ before_screenshots b !! K = Some (sha256 (content fb))
       ∧ diff_engine v (l1 ++ fb :: l2) after = Ok d
       ∧ (K ∈ changed d ↔
          ∃ fa, fa ∈ after ∧ key_of v fa = Ok K
                ∧ sha256 (content fa) ≠ sha256 (content fb))
       ∧ (K ∈ unchanged v (l1 ++ fb :: l2) after ↔
          ∃ fa, fa ∈ after ∧ key_of v fa = Ok K
                ∧ sha256 (content fa) = sha256 (content fb)).
Proof.
  intros HK Hlast Hall.
  destruct (diff_engine_total v _ _ Hall) as [d Hrun].
  pose proof Hrun as (b & a & Hb & _)%diff_engine_Ok.
  exists b, d.
  pose proof (scan_before_last _ _ _ _ _ _ Hb HK Hlast) as Hlookup.
  rewrite compute_file_hash_sha256 in Hlookup.
  split; [done|]. split; [done|]. split; [done|]. split.
  - rewrite (elem_of_changed _ _ _ _ Hrun _ _ Hb). split.
    + intros (fa & Hfa & Hka & h & Hh & Hne). exists fa. repeat split; [done..|].
      congruence.
    + intros (fa & Hfa & Hka & Hne). exists fa. repeat split; [done..|].
      exists (sha256 (content fb)). split; [done|]. congruence.
  - rewrite (elem_of_unchanged _ _ _ _ _ Hb). split.
    + intros (fa & Hfa & Hka & Hh). exists fa. repeat split; [done..|]. congruence.
    + intros (fa & Hfa & Hka & Heq). exists fa. repeat split; [done..|]. congruence.
Qed.

End EngineClaims.

(** ** Loops in the trace monad *)

Section Mfold.
Context {A : Type}.

Lemma M_bind_Ok {X Y} (k : X → M Y) x t :
  MkM (Ok x) t ≫= k = MkM (outcome (k x)) (t ++ trace (k x)).
Proof. reflexivity. Qed.

Lemma M_bind_emit {Y} (k : unit → M Y) e :
  emit e ≫= k = MkM (outcome (k tt)) (e :: trace (k tt)).
Proof. reflexivity. Qed.

Lemma M_bind_ret {X Y} (k : X → M Y) x : mret x ≫= k = k x.
Proof. unfold mret, M_ret. rewrite M_bind_Ok. by destruct (k x). Qed.


Lemma cat_cons s l : Py.cat (s :: l) = s +:+ Py.cat l.
Proof. reflexivity. Qed.

(** A loop each of whose rounds appends one fragment and issues the events
    [ev x] appends the fragments in order and issues the events in order. *)
Lemma mfold_append (body : string → A → M string) (ev : A → list event)
    (l : list A) (frags : list string) (s : string) :
  Forall2 (λ x fr, ∀ s, body s x = MkM (Ok (s +:+ fr)) (ev x)) l frags →
  mfold body l s = MkM (Ok (s +:+ Py.cat frags)) (l ≫= ev).
Proof.
  intros Hall. revert s. induction Hall as [|x fr l frags Hx _ IH]; intros s.
  - simpl. by rewrite append_nil_r.
  - cbn [mfold]. rewrite Hx, M_bind_Ok, IH. cbn [outcome trace].
    by rewrite cat_cons, append_assoc.
Qed.

End Mfold.

(** ** The renderer *)

Section Fragments.
Context `{PyRuntime}.
Import Py.

Lemma key_of_well_formed v f K : key_of v f = Ok K → well_formed_key v K.
Proof.
  intros HK ->. apply styled_key_segments in HK as (a & b & c & ->). done.
Qed.

Lemma getitem_0_Ok {A} (l : list A) : l ≠ [] → ∃ x, getitem l 0 = Ok x.
Proof. destruct l as [|x l]; [done|]. intros _. exists x. apply getitem_first. Qed.

(** The bare file name is always defined: [split] never returns []. *)
Lemma screenshot_name_Ok K : ∃ name, screenshot_name K = Ok name.
Proof.
  unfold screenshot_name.
  destruct (getitem_last_is_Ok (split sep K)) as [last ->]; [apply split_not_nil|].
  simpl. apply getitem_0_Ok, split_not_nil.
Qed.

(** On a key of three segments [path.split(sep)[1]] is in range. *)
Lemma locale_heading_Ok K :
  length (split sep K) = 3 → ∃ part, locale_heading K = Ok (str_upper_method part).
Proof.
  intros Hlen. unfold locale_heading.
  destruct (split sep K) as [|x [|y l]]; simpl in Hlen; try lia.
  exists y. by rewrite getitem_second.
Qed.

Lemma removed_fragment_Ok v K :
  well_formed_key v K →
  ∃ name lead tail,
    screenshot_name K = Ok name
    ∧ removed_fragment v K
      = Ok (lead +:+ "REMOVED " +:+ name +:+ tail +:+ img "before" K +:+ "</p>").
Proof.
  intros Hwf. destruct (screenshot_name_Ok K) as [name Hname]. exists name.
  unfold removed_fragment. destruct v.
  - destruct (locale_heading_Ok K) as [part ->]; [by apply Hwf|].
    rewrite Hname. simpl.
    exists ("<p><h2>" +:+ str_upper_method part +:+ ": "), "</h2>".
    split; [done|]. by rewrite !append_assoc.
  - rewrite Hname. simpl. by exists "<p>", "</br>".
Qed.

Lemma added_fragment_Ok v K :
  well_formed_key v K →
  ∃ name lead tail,
    screenshot_name K = Ok name
    ∧ added_fragment v K
      = Ok (lead +:+ "ADDED " +:+ name +:+ tail +:+ img "after" K +:+ "</p>").
Proof.
  intros Hwf. destruct (screenshot_name_Ok K) as [name Hname]. exists name.
  unfold added_fragment. destruct v.
  - destruct (locale_heading_Ok K) as [part ->]; [by apply Hwf|].
    rewrite Hname. simpl.
    exists ("<p><h2>" +:+ str_upper_method part +:+ ": "), "</h2>".
    split; [done|]. by rewrite !append_assoc.
  - rewrite Hname. simpl. by exists "<p>", "</br>".
Qed.

Lemma changed_fragment_Ok v K :
  well_formed_key v K →
  ∃ name lead tail,
    screenshot_name K = Ok name
    ∧ changed_fragment v K
      = Ok (lead +:+ name +:+ tail +:+ img "before" K +:+ "&nbsp;"
              +:+ img "after" K +:+ "</p>").
Proof.
  intros Hwf. destruct (screenshot_name_Ok K) as [name Hname]. exists name.
  unfold changed_fragment. destruct v.
  - destruct (locale_heading_Ok K) as [part ->]; [by apply Hwf|].
    rewrite Hname. simpl.
    exists ("<p><h2>" +:+ str_upper_method part +:+ ": "), "</h2>".
    split; [done|]. by rewrite !append_assoc.
  - rewrite Hname. simpl. by exists "<p>", "</br>".
Qed.

End Fragments.

Section Rounds.
Context `{PyRuntime} `{FileSystem} (a : args).

Lemma outcome_bind {X Y} (m : M X) (k : X → M Y) :
  outcome (m ≫= k) = outcome m ≫= λ x, outcome (k x).
Proof. unfold mbind at 1, M_bind. by destruct (outcome m). Qed.

Lemma shutil_copy_eq v src dst :
  shutil_copy v src dst
  = match v with
    | Styled => MkM (shutil_copy_result src dst) [Copy src dst]
    | Simple => MkM (Ok tt) []
    end.
Proof. by destruct v. Qed.

Lemma shutil_copy_trace v src dst :
  trace (shutil_copy v src dst)
  = match v with Styled => [Copy src dst] | Simple => [] end.
Proof. by destruct v. Qed.

(** [shutil.copy] raises nothing but its two errors. *)
Lemma shutil_copy_result_Raise src dst e :
  shutil_copy_result src dst = Raise e →
  e = SameFileError src dst ∨ e = FileNotFoundError src.
Proof.
  unfold shutil_copy_result. destruct (samefile src dst); [intros [= <-]; by left|].
  destruct (is_file src); [done|]. intros [= <-]. by right.
Qed.

(** Copying a path onto itself always raises. *)
Lemma shutil_copy_result_same p : ∃ e, shutil_copy_result p p = Raise e.
Proof.
  unfold shutil_copy_result. destruct (samefile p p) eqn:Hsame; [by eexists|].
  destruct (is_file p) eqn:Hfile; [|by eexists].
  by rewrite (samefile_refl p Hfile) in Hsame.
Qed.

Lemma removed_events_eq v K :
  removed_events v a K
  = [ Print ("Screenshot only in before: " +:+ K +:+ " | output_dir_before="
               +:+ repr_str (output_dir_before a));
      Makedirs (Py.os_path_join (output_dir_before a) (Py.os_path_dirname K)) ]
    ++ match v with
       | Styled => [Copy (Py.os_path_join (before_dir a) K)
                         (Py.os_path_join (output_dir_before a) K)]
       | Simple => []
       end.
Proof. reflexivity. Qed.

Lemma added_events_eq v K :
  added_events v a K
  = [ Print ("Screenshot only in after: " +:+ K +:+ " | output_dir_after="
               +:+ repr_str (output_dir_after a));
      Makedirs (Py.os_path_join (output_dir_after a) (Py.os_path_dirname K)) ]
    ++ match v with
       | Styled => [Copy (Py.os_path_join (after_dir a) K)
                         (Py.os_path_join (output_dir_after a) K)]
       | Simple => []
       end.
Proof. reflexivity. Qed.


(** A round whose copies return appends its fragment, having issued all
    the calls of the round. *)
Lemma render_removed_Ok v html K fr :
  removed_fragment v K = Ok fr → copied_before v a K →
  render_removed v a html K = MkM (Ok (html +:+ fr)) (removed_events v a K).
Proof.
  intros Hfr Hcp. unfold removed_events, render_removed.
  rewrite Hfr, shutil_copy_eq. destruct v; [|done]. by rewrite (Hcp eq_refl).
Qed.

Lemma render_added_Ok v html K fr :
  added_fragment v K = Ok fr → copied_after v a K →
  render_added v a html K = MkM (Ok (html +:+ fr)) (added_events v a K).
Proof.
  intros Hfr Hcp. unfold added_events, render_added.
  rewrite Hfr, shutil_copy_eq. destruct v; [|done]. by rewrite (Hcp eq_refl).
Qed.

Lemma render_changed_Ok v html K fr :
  changed_fragment v K = Ok fr → copied_before v a K → copied_after v a K →
  render_changed v a html K = MkM (Ok (html +:+ fr)) (changed_events v a K).
Proof.
  intros Hfr Hb Ha. unfold changed_events, render_changed.
  rewrite Hfr, !shutil_copy_eq. destruct v; [|done].
  by rewrite (Hb eq_refl), (Ha eq_refl).
Qed.

(** A round of the styled script whose copy raises stops there: the copy
    is the last call issued and no fragment is appended. *)
Lemma render_removed_Raise html K e :
  shutil_copy_result (Py.os_path_join (before_dir a) K)
                     (Py.os_path_join (output_dir_before a) K) = Raise e →
  render_removed Styled a html K = MkM (Raise e) (removed_events Styled a K).
Proof. intros He. unfold removed_events, render_removed. by rewrite shutil_copy_eq, He. Qed.

Lemma render_added_Raise html K e :
  shutil_copy_result (Py.os_path_join (after_dir a) K)
                     (Py.os_path_join (output_dir_after a) K) = Raise e →
  render_added Styled a html K = MkM (Raise e) (added_events Styled a K).
Proof. intros He. unfold added_events, render_added. by rewrite shutil_copy_eq, He. Qed.

Lemma render_changed_Raise_before html K e :
  shutil_copy_result (Py.os_path_join (before_dir a) K)
                     (Py.os_path_join (output_dir_before a) K) = Raise e →
  render_changed Styled a html K
  = MkM (Raise e)
        [ Print ("Screenshot different: " +:+ K);
          Makedirs (Py.os_path_join (output_dir_before a) (Py.os_path_dirname K));
          Makedirs (Py.os_path_join (output_dir_after a) (Py.os_path_dirname K));
          Copy (Py.os_path_join (before_dir a) K) (Py.os_path_join (output_dir_before a) K) ].
Proof. intros He. unfold render_changed. by rewrite !shutil_copy_eq, He. Qed.

Lemma render_changed_Raise_after html K e :
  shutil_copy_result (Py.os_path_join (before_dir a) K)
                     (Py.os_path_join (output_dir_before a) K) = Ok tt →
  shutil_copy_result (Py.os_path_join (after_dir a) K)
                     (Py.os_path_join (output_dir_after a) K) = Raise e →
  render_changed Styled a html K = MkM (Raise e) (changed_events Styled a K).
Proof.
  intros Hb He. unfold changed_events, render_changed.
  by rewrite !shutil_copy_eq, Hb, He.
Qed.

(** What a round returns or raises, given that its f-string raises nothing. *)
Lemma render_removed_outcome v html K fr :
  removed_fragment v K = Ok fr →
  (∀ h, outcome (render_removed v a html K) = Ok h → copied_before v a K)
  ∧ (∀ e, outcome (render_removed v a html K) = Raise e →
       v = Styled
       ∧ shutil_copy_result (Py.os_path_join (before_dir a) K)
                            (Py.os_path_join (output_dir_before a) K) = Raise e).
Proof.
  intros Hfr. destruct v.
  - destruct (shutil_copy_result (Py.os_path_join (before_dir a) K)
                (Py.os_path_join (output_dir_before a) K)) as [[]|e'] eqn:Hcp.
    + split; [by intros h _ _|]. intros e.
      rewrite (render_removed_Ok Styled html K fr Hfr); [done | by intros _].
    + rewrite (render_removed_Raise html K e' Hcp). split; [done|].
      by intros e [= <-].
  - split; [by intros h _ ?|]. intros e.
    by rewrite (render_removed_Ok Simple html K fr Hfr).
Qed.

Lemma render_added_outcome v html K fr :
  added_fragment v K = Ok fr →
  (∀ h, outcome (render_added v a html K) = Ok h → copied_after v a K)
  ∧ (∀ e, outcome (render_added v a html K) = Raise e →
       v = Styled
       ∧ shutil_copy_result (Py.os_path_join (after_dir a) K)
                            (Py.os_path_join (output_dir_after a) K) = Raise e).
Proof.
  intros Hfr. destruct v.
  - destruct (shutil_copy_result (Py.os_path_join (after_dir a) K)
                (Py.os_path_join (output_dir_after a) K)) as [[]|e'] eqn:Hcp.
    + split; [by intros h _ _|]. intros e.
      rewrite (render_added_Ok Styled html K fr Hfr); [done | by intros _].
    + rewrite (render_added_Raise html K e' Hcp). split; [done|].
      by intros e [= <-].
  - split; [by intros h _ ?|]. intros e.
    by rewrite (render_added_Ok Simple html K fr Hfr).
Qed.

Lemma render_changed_outcome v html K fr :
  changed_fragment v K = Ok fr →
  (∀ h, outcome (render_changed v a html K) = Ok h →
     copied_before v a K ∧ copied_after v a K)
  ∧ (∀ e, outcome (render_changed v a html K) = Raise e →
       v = Styled
       ∧ (shutil_copy_result (Py.os_path_join (before_dir a) K)
                             (Py.os_path_join (output_dir_before a) K) = Raise e
          ∨ shutil_copy_result (Py.os_path_join (after_dir a) K)
                               (Py.os_path_join (output_dir_after a) K) = Raise e)).
Proof.
  intros Hfr. destruct v.
  - destruct (shutil_copy_result (Py.os_path_join (before_dir a) K)
                (Py.os_path_join (output_dir_before a) K)) as [[]|e1] eqn:Hb.
    + destruct (shutil_copy_result (Py.os_path_join (after_dir a) K)
                  (Py.os_path_join (output_dir_after a) K)) as [[]|e2] eqn:Ha.
      * split; [by intros h _; split; intros _|]. intros e.
        rewrite (render_changed_Ok Styled html K fr Hfr); [done | by intros _..].
      * rewrite (render_changed_Raise_after html K e2 Hb Ha). split; [done|].
        intros e [= <-]. auto.
    + rewrite (render_changed_Raise_before html K e1 Hb). split; [done|].
      intros e [= <-]. auto.
  - split; [by intros h _; split; intros ?|]. intros e.
    by rewrite (render_changed_Ok Simple html K fr Hfr).
Qed.

End Rounds.

Section MfoldOutcome.
Context {S A : Type} (body : S → A → M S).

Lemma mfold_cons x l s : mfold body (x :: l) s = body s x ≫= mfold body l.
Proof. reflexivity. Qed.

(** A loop that returns ran each of its rounds without an exception. *)
Lemma mfold_Ok_each l s s' :
  outcome (mfold body l s) = Ok s' →
  ∀ x, x ∈ l → ∃ s1 s2, outcome (body s1 x) = Ok s2.
Proof.
  revert s. induction l as [|y l IH]; intros s Hrun x Hx; [by apply elem_of_nil in Hx|].
  rewrite mfold_cons, outcome_bind in Hrun.
  destruct (outcome (body s y)) as [s1|e] eqn:Hy; [|done].
  apply elem_of_cons in Hx as [->|Hx]; [eauto | by eapply IH].
Qed.


Lemma elem_of_trace_bind {X Y} (m : M X) (k : X → M Y) ev :
  ev ∈ trace (m ≫= k) → ev ∈ trace m ∨ ∃ x, outcome m = Ok x ∧ ev ∈ trace (k x).
Proof.
  unfold mbind, M_bind. destruct (outcome m) as [x|e]; cbn [trace]; [|by left].
  intros [?|?]%elem_of_app; [by left | right; eauto].
Qed.

(** An event of a loop is an event of one of its rounds. *)
Lemma mfold_trace_elem l s ev :
  ev ∈ trace (mfold body l s) → ∃ x s1, x ∈ l ∧ ev ∈ trace (body s1 x).
Proof.
  revert s. induction l as [|y l IH]; intros s Hev; [by apply elem_of_nil in Hev|].
  rewrite mfold_cons in Hev. apply elem_of_trace_bind in Hev as [Hev|(s1 & _ & Hev)].
  - exists y, s. split; [by left | done].
  - apply IH in Hev as (x & s2 & Hx & Hev). exists x, s2. split; [by right | done].
Qed.

End MfoldOutcome.

Section Render.
Context `{PyRuntime} `{FileSystem} (v : variant) (a : args).

Lemma elem_of_set_iter (X : gset string) K : K ∈ set_iter X ↔ K ∈ X.
Proof. by rewrite (set_iter_perm X), elem_of_elements. Qed.


Lemma set_iter_empty : set_iter ∅ = [].
Proof.
  apply Permutation_nil_r. by rewrite (set_iter_perm ∅), elements_empty.
Qed.

Lemma Forall2_total {X Y} (R : X → Y → Prop) (l : list X) :
  (∀ x, x ∈ l → ∃ y, R x y) → ∃ k, Forall2 R l k.
Proof.
  induction l as [|x l IH]; intros Hall; [exists []; constructor|].
  destruct (Hall x) as [y Hy]; [by left|].
  destruct IH as [k Hk]; [intros; apply Hall; by right|].
  exists (y :: k). by constructor.
Qed.

Lemma Forall2_and_l {X Y} (R : X → Y → Prop) (P : X → Prop) (l : list X) (k : list Y) :
  Forall2 R l k → (∀ x, x ∈ l → P x) → Forall2 (λ x y, R x y ∧ P x) l k.
Proof.
  induction 1 as [|x y l k Hxy _ IH]; intros HP; constructor.
  - split; [done|]. apply HP. by left.
  - apply IH. intros ??. apply HP. by right.
Qed.

(** The shape of a run of the renderer that raises nothing: the fragments
    of the three loops in order, then the "no differences" fragment if all
    three buckets are empty; and the events of each round in order. *)
Lemma render_shape (d : diff_result) (fragsR fragsA fragsC : list string) :
  Forall2 (λ K fr, removed_fragment v K = Ok fr) (set_iter (onlyInBefore d)) fragsR →
  Forall2 (λ K fr, added_fragment v K = Ok fr) (onlyInAfter d) fragsA →
  Forall2 (λ K fr, changed_fragment v K = Ok fr) (changed d) fragsC →
  all_copied v a d →
  render v a d
  = MkM (Ok (html_start v +:+ Py.cat fragsR +:+ Py.cat fragsA +:+ Py.cat fragsC
               +:+ (if no_differences d then no_differences_fragment v else "")))
        ([Makedirs (output_dir_before a); Makedirs (output_dir_after a)]
           ++ (set_iter (onlyInBefore d) ≫= removed_events v a)
           ++ (onlyInAfter d ≫= added_events v a)
           ++ (changed d ≫= changed_events v a)
           ++ (if no_differences d
               then match v with Styled => [Print "No differences found"] | Simple => [] end
               else [])).
Proof.
  intros HR HA HC [Hcb Hca]. unfold render.
  rewrite !M_bind_emit.
  rewrite (mfold_append (render_removed v a) (removed_events v a) _ fragsR).
  2:{ eapply Forall2_impl; [apply (Forall2_and_l _ (copied_before v a) _ _ HR)|].
      - intros K HK%elem_of_set_iter. auto.
      - intros K fr [Hfr Hcp] s. by apply render_removed_Ok. }
  rewrite M_bind_Ok.
  rewrite (mfold_append (render_added v a) (added_events v a) _ fragsA).
  2:{ eapply Forall2_impl; [apply (Forall2_and_l _ (copied_after v a) _ _ HA)|].
      - intros K HK. auto.
      - intros K fr [Hfr Hcp] s. by apply render_added_Ok. }
  rewrite M_bind_Ok.
  rewrite (mfold_append (render_changed v a) (changed_events v a) _ fragsC).
  2:{ eapply Forall2_impl;
        [apply (Forall2_and_l _ (λ K, copied_before v a K ∧ copied_after v a K) _ _ HC)|].
      - intros K HK. auto.
      - intros K fr [Hfr [Hb Ha]] s. by apply render_changed_Ok. }
  cbn [outcome trace]. rewrite M_bind_Ok.
  destruct (no_differences d); [destruct v|]; cbn [outcome trace render_no_differences];
    rewrite ?M_bind_emit; cbn [outcome trace mret M_ret];
    rewrite ?append_assoc, ?append_nil_r, ?app_nil_r, <- ?app_assoc; reflexivity.
Qed.

Lemma render_no_differences_outcome html :
  outcome (render_no_differences v html) = Ok (html +:+ no_differences_fragment v).
Proof. by destruct v. Qed.

(** The outcome of the renderer, loop by loop. *)
Lemma render_outcome d :
  outcome (render v a d)
  = (html ← outcome (mfold (render_removed v a) (set_iter (onlyInBefore d)) (html_start v));
     html ← outcome (mfold (render_added v a) (onlyInAfter d) html);
     html ← outcome (mfold (render_changed v a) (changed d) html);
     Ok (if no_differences d then html +:+ no_differences_fragment v else html)).
Proof.
  unfold render. rewrite !M_bind_emit. cbn [outcome].
  rewrite outcome_bind.
  destruct (outcome (mfold (render_removed v a) _ _)) as [h1|e]; [|done].
  cbn [mbind result_bind]. rewrite outcome_bind.
  destruct (outcome (mfold (render_added v a) _ _)) as [h2|e]; [|done].
  cbn [mbind result_bind]. rewrite outcome_bind.
  destruct (outcome (mfold (render_changed v a) _ _)) as [h3|e]; [|done].
  cbn [mbind result_bind].
  destruct (no_differences d); [apply render_no_differences_outcome | done].
Qed.

End Render.

Section RenderEngine.
Context `{PyRuntime} (v : variant).

Lemma scan_before_from_lookup files st b K h :
  rfold (scan_before_step v) files st = Ok b →
  before_screenshots b !! K = Some h →
  before_screenshots st !! K = Some h
  ∨ ∃ f, f ∈ files ∧ key_of v f = Ok K ∧ h = compute_file_hash (content f).
Proof.
  revert st. induction files as [|f files IH]; intros st Hrun Hh.
  - injection Hrun as <-. by left.
  - rewrite rfold_cons in Hrun.
    destruct (scan_before_step v st f) as [st1|e] eqn:Hstep; [|done].
    apply scan_before_step_Ok in Hstep as (k & Hk & ->).
    destruct (IH _ Hrun Hh) as [Hst|(f' & Hf' & ? & ?)].
    + simpl in Hst. apply lookup_insert_Some in Hst as [[<- <-]|[_ Hst]].
      * right. exists f. split; [by left | done].
      * by left.
    + right. exists f'. split; [by right | done].
Qed.

(** Every entry of the before map is the digest of a "before" file. *)
Lemma scan_before_lookup_Some files b K h :
  scan_before v files = Ok b →
  before_screenshots b !! K = Some h →
  ∃ f, f ∈ files ∧ key_of v f = Ok K ∧ h = sha256 (content f).
Proof.
  intros Hrun Hh.
  destruct (scan_before_from_lookup _ _ _ _ _ Hrun Hh) as [Hst|(f & ? & ? & ->)].
  - simpl in Hst. by rewrite lookup_empty in Hst.
  - exists f. by rewrite compute_file_hash_sha256.
Qed.

(** The keys the engine reports are keys of files, hence well formed. *)
Lemma diff_engine_well_formed before after d K :
  diff_engine v before after = Ok d →
  K ∈ onlyInBefore d ∨ K ∈ onlyInAfter d ∨ K ∈ changed d →
  well_formed_key v K.
Proof.
  intros Hrun [HK|[HK|HK]].
  - apply (elem_of_onlyInBefore _ _ _ _ Hrun) in HK as [(f & _ & Hf) _].
    by eapply key_of_well_formed.
  - apply (elem_of_onlyInAfter _ _ _ _ Hrun) in HK as [(f & _ & Hf) _].
    by eapply key_of_well_formed.
  - apply (changed_in_after _ _ _ _ Hrun) in HK as (f & _ & Hf).
    by eapply key_of_well_formed.
Qed.

(** On the buckets of the engine no f-string of the renderer raises. *)
Lemma fragments_of_engine before after d :
  diff_engine v before after = Ok d →
  ∃ fragsR fragsA fragsC,
    Forall2 (λ K fr, removed_fragment v K = Ok fr) (set_iter (onlyInBefore d)) fragsR
    ∧ Forall2 (λ K fr, added_fragment v K = Ok fr) (onlyInAfter d) fragsA
    ∧ Forall2 (λ K fr, changed_fragment v K = Ok fr) (changed d) fragsC.
Proof.
  intros Hrun. pose proof (λ K, diff_engine_well_formed _ _ _ K Hrun) as Hwf.
  destruct (Forall2_total (λ K fr, removed_fragment v K = Ok fr)
              (set_iter (onlyInBefore d))) as [fragsR HR].
  { intros K HK%elem_of_set_iter.
    destruct (removed_fragment_Ok v K) as (? & ? & ? & _ & ->); eauto. }
  destruct (Forall2_total (λ K fr, added_fragment v K = Ok fr)
              (onlyInAfter d)) as [fragsA HA].
  { intros K HK. destruct (added_fragment_Ok v K) as (? & ? & ? & _ & ->); eauto. }
  destruct (Forall2_total (λ K fr, changed_fragment v K = Ok fr)
              (changed d)) as [fragsC HC].
  { intros K HK. destruct (changed_fragment_Ok v K) as (? & ? & ? & _ & ->); eauto 6. }
  by exists fragsR, fragsA, fragsC.
Qed.

End RenderEngine.

Section ReportClaims.
Context `{PyRuntime} `{FileSystem} (v : variant) (a : args) (s : assets).

Lemma main_of_engine before after d :
  diff_engine v before after = Ok d →
  main v a s before after = render v a d ≫= publish v a s.
Proof.
  intros Hrun. unfold main. rewrite Hrun. unfold lift. rewrite M_bind_Ok.
  cbn [app]. by destruct (render v a d ≫= publish v a s).
Qed.

Lemma render_nothing :
  render v a (DiffResult ∅ [] [])
  = MkM (Ok (html_start v +:+ no_differences_fragment v))
        ([Makedirs (output_dir_before a); Makedirs (output_dir_after a)]
           ++ match v with Styled => [Print "No differences found"] | Simple => [] end).
Proof.
  rewrite (render_shape v a _ [] [] []); cbn [onlyInBefore onlyInAfter changed].
  - rewrite set_iter_empty. by destruct v.
  - rewrite set_iter_empty. constructor.
  - constructor.
  - constructor.
  - split; intros K [HK|HK]; cbn [onlyInBefore onlyInAfter changed] in HK;
      solve [by apply elem_of_empty in HK | by apply elem_of_nil in HK].
Qed.

(** C5: when the two trees reduce to the same keys and files at the same key
    have identical bytes, the engine returns three empty buckets and the
    renderer appends the "No differences found" fragment and nothing else:
    the page of the simpler script is that fragment between its fixed tags,
    the page of the styled script is its template with that fragment. *)
Theorem identical_trees_report_no_differences (before after : list file) :
  (∀ f, f ∈ before ++ after → ∃ k, key_of v f = Ok k) →
  (∀ K, (∃ f, f ∈ before ∧ key_of v f = Ok K)
        ↔ (∃ f, f ∈ after ∧ key_of v f = Ok K)) →
  (∀ fb fa K, fb ∈ before → fa ∈ after →
     key_of v fb = Ok K → key_of v fa = Ok K → content fb = content fa) →
  ∃ d, diff_engine v before after = Ok d
       ∧ onlyInBefore d = ∅ ∧ onlyInAfter d = [] ∧ changed d = []
       ∧ render v a d
         = MkM (Ok (html_start v +:+ no_differences_fragment v))
               ([Makedirs (output_dir_before a); Makedirs (output_dir_after a)]
                  ++ match v with
                     | Styled => [Print "No differences found"]
                     | Simple => []
                     end)
       ∧ main v a s before after
         = MkM (Ok tt)
               ([Makedirs (output_dir_before a); Makedirs (output_dir_after a)]
                  ++ match v with
                     | Styled =>
                         [ Print "No differences found";
                           ReadText (Py.os_path_join (script_dir s) "index.html");
                           WriteText (Py.os_path_join (output_dir a) "index.html")
                             (Py.replace (template s) placeholder
                                "<h1>No differences found</h1>");
                           Copy (Py.os_path_join (script_dir s) "pico.min.css")
                                (Py.os_path_join (output_dir a) "pico.min.css") ]
                     | Simple =>
                         [ WriteText (Py.os_path_join (output_dir a) "diffs.html")
                             "<html><body><p>No differences found</p></body></html>" ]
                     end).
Proof.
  intros Hkeys Hsame Hbytes.
  destruct (diff_engine_total v before after Hkeys) as [d Hrun]. exists d.
  pose proof Hrun as (b & a' & Hb & _)%diff_engine_Ok.
  assert (onlyInBefore d = ∅) as HB.
  { apply elem_of_equiv_empty_L. intros K [Hin Hout]%(elem_of_onlyInBefore _ _ _ _ Hrun).
    by apply Hout, Hsame. }
  assert (onlyInAfter d = []) as HA.
  { apply elem_of_nil_inv. intros K [Hin Hout]%(elem_of_onlyInAfter _ _ _ _ Hrun).
    by apply Hout, Hsame. }
  assert (changed d = []) as HC.
  { apply elem_of_nil_inv.
    intros K (fa & Hfa & Hka & h & Hh & Hne)%(elem_of_changed _ _ _ _ Hrun _ _ Hb).
    apply (scan_before_lookup_Some _ _ _ _ _ Hb) in Hh as (fb & Hfb & Hkb & ->).
    by rewrite (Hbytes fb fa K) in Hne. }
  assert (d = DiffResult ∅ [] []) as Hd by (destruct d; simpl in *; congruence).
  repeat split; [done..| |].
  - rewrite Hd. apply render_nothing.
  - rewrite (main_of_engine _ _ _ Hrun), Hd, render_nothing, M_bind_Ok.
    by destruct v.
Qed.

End ReportClaims.

(** ** Where a fragment and the events of a round end up *)

Section Occurrences.
Import Py.

Lemma substring_refl s : substring s s.
Proof. exists "", "". by rewrite append_nil_r. Qed.







Lemma segment_elem_of {A} (e : A) (x l : list A) : segment x l → e ∈ x → e ∈ l.
Proof. intros (l1 & l2 & ->) He. rewrite !elem_of_app. auto. Qed.


Lemma startswith_append s t c : s ≠ "" → startswith (s +:+ t) c = startswith s c.
Proof. by destruct s. Qed.




End Occurrences.

Section Copies.
Context `{PyRuntime} `{FileSystem} (v : variant) (a : args).





Lemma copies_removed_events K :
  copies (removed_events v a K)
  = match v with
    | Styled => [(Py.os_path_join (before_dir a) K, Py.os_path_join (output_dir_before a) K)]
    | Simple => []
    end.
Proof. rewrite removed_events_eq. by destruct v. Qed.

Lemma copies_added_events K :
  copies (added_events v a K)
  = match v with
    | Styled => [(Py.os_path_join (after_dir a) K, Py.os_path_join (output_dir_after a) K)]
    | Simple => []
    end.
Proof. rewrite added_events_eq. by destruct v. Qed.



Lemma all_copied_simple d : v = Simple → all_copied v a d.
Proof. intros ->. by split; intros K _ ?. Qed.


Lemma render_returns before after d :
  diff_engine v before after = Ok d → all_copied v a d →
  ∃ html, outcome (render v a d) = Ok html.
Proof.
  intros (fragsR & fragsA & fragsC & HR & HA & HC)%fragments_of_engine Hall.
  rewrite (render_shape v a d _ _ _ HR HA HC Hall). by eexists.
Qed.

(** The renderer returns only if every copy did. *)
Lemma render_Ok_all_copied before after d html :
  diff_engine v before after = Ok d →
  outcome (render v a d) = Ok html → all_copied v a d.
Proof.
  intros Hrun Hout.
  pose proof (λ K, diff_engine_well_formed _ _ _ _ K Hrun) as Hwf.
  rewrite render_outcome in Hout.
  destruct (outcome (mfold (render_removed v a) _ _)) as [h1|] eqn:H1; [|done].
  cbn [mbind result_bind] in Hout.
  destruct (outcome (mfold (render_added v a) _ _)) as [h2|] eqn:H2; [|done].
  cbn [mbind result_bind] in Hout.
  destruct (outcome (mfold (render_changed v a) _ _)) as [h3|] eqn:H3; [|done].
  assert (∀ K, K ∈ changed d → copied_before v a K ∧ copied_after v a K) as Hch.
  { intros K HK. destruct (mfold_Ok_each _ _ _ _ H3 K HK) as (s1 & s2 & Hround).
    destruct (changed_fragment_Ok v K) as (? & ? & ? & _ & Hfr); [auto|].
    by apply (render_changed_outcome a v s1 K _ Hfr) in Hround. }
  split.
  - intros K [HK|HK]; [|by apply Hch].
    destruct (mfold_Ok_each _ _ _ _ H1 K) as (s1 & s2 & Hround);
      [by apply elem_of_set_iter|].
    destruct (removed_fragment_Ok v K) as (? & ? & ? & _ & Hfr); [auto|].
    by apply (render_removed_outcome a v s1 K _ Hfr) in Hround.
  - intros K [HK|HK]; [|by apply Hch].
    destruct (mfold_Ok_each _ _ _ _ H2 K HK) as (s1 & s2 & Hround).
    destruct (added_fragment_Ok v K) as (? & ? & ? & _ & Hfr); [auto|].
    by apply (render_added_outcome a v s1 K _ Hfr) in Hround.
Qed.


End Copies.

Section RendererClaims.
Context `{PyRuntime} `{FileSystem} (v : variant) (a : args).


End RendererClaims.

(** ** Template substitution *)

Section Replace.
Import Py.
Context (c : ascii) (old' new : string).

Lemma has_prefix_self p post : has_prefix p (p +:+ post) = true.
Proof.
  induction p as [|x p IH]; [done|].
  rewrite append_cons. cbn [has_prefix]. by rewrite bool_decide_eq_true_2, IH.
Qed.

Lemma replace_from_skip old x post :
  replace_from old new (String.length x) (x +:+ post) = replace_from old new 0 post.
Proof. induction x as [|y x IH]; [by destruct post | exact IH]. Qed.

Lemma replace_from_unfold old x rest :
  replace_from old new 0 (String x rest)
  = if has_prefix old (String x rest)
    then new +:+ replace_from old new (String.length old - 1) rest
    else String x (replace_from old new 0 rest).
Proof. reflexivity. Qed.

Lemma replace_from_match post :
  replace_from (String c old') new 0 (String c old' +:+ post)
  = new +:+ replace_from (String c old') new 0 post.
Proof.
  rewrite append_cons, replace_from_unfold, <- append_cons, has_prefix_self.
  replace (String.length (String c old') - 1) with (String.length old')
    by (cbn [String.length]; lia).
  by rewrite replace_from_skip.
Qed.

Lemma replace_from_pre pre rest :
  contains pre c = false →
  replace_from (String c old') new 0 (pre +:+ rest)
  = pre +:+ replace_from (String c old') new 0 rest.
Proof.
  induction pre as [|x pre IH]; [done|].
  cbn [contains]. intros [Hx Hpre]%orb_false_elim. apply bool_decide_eq_false_1 in Hx.
  rewrite !append_cons, replace_from_unfold. cbn [has_prefix].
  rewrite bool_decide_eq_false_2 by congruence. cbn [andb]. by rewrite IH.
Qed.

Lemma replace_from_free post :
  contains post c = false → replace_from (String c old') new 0 post = post.
Proof.
  intros Hpost. rewrite <- (append_nil_r post) at 1.
  rewrite replace_from_pre by done. by rewrite append_nil_r.
Qed.

(** A template with one placeholder, and none of its first character
    elsewhere, has the placeholder replaced and the rest left as it is. *)
Lemma replace_once pre post :
  contains pre c = false → contains post c = false →
  replace (pre +:+ String c old' +:+ post) (String c old') new = pre +:+ new +:+ post.
Proof.
  intros Hpre Hpost. unfold replace.
  by rewrite replace_from_pre, replace_from_match, replace_from_free.
Qed.

End Replace.

Section PublishClaims.
Context `{PyRuntime} `{FileSystem} (v : variant) (a : args) (s : assets).

(** The renderer writes no file. *)
Lemma render_removed_no_write h K file text :
  WriteText file text ∉ trace (render_removed v a h K).
Proof.
  unfold render_removed. rewrite shutil_copy_eq.
  destruct v; [destruct (shutil_copy_result _ _)|];
    destruct (removed_fragment _ K); cbn; intros Hin;
    repeat (apply elem_of_cons in Hin as [Hin|Hin]; [discriminate|]);
    by apply elem_of_nil in Hin.
Qed.

Lemma render_added_no_write h K file text :
  WriteText file text ∉ trace (render_added v a h K).
Proof.
  unfold render_added. rewrite shutil_copy_eq.
  destruct v; [destruct (shutil_copy_result _ _)|];
    destruct (added_fragment _ K); cbn; intros Hin;
    repeat (apply elem_of_cons in Hin as [Hin|Hin]; [discriminate|]);
    by apply elem_of_nil in Hin.
Qed.

Lemma render_changed_no_write h K file text :
  WriteText file text ∉ trace (render_changed v a h K).
Proof.
  unfold render_changed. rewrite !shutil_copy_eq.
  destruct v;
    [destruct (shutil_copy_result (Py.os_path_join (before_dir a) K) _);
     destruct (shutil_copy_result (Py.os_path_join (after_dir a) K) _)|];
    destruct (changed_fragment _ K); cbn; intros Hin;
    repeat (apply elem_of_cons in Hin as [Hin|Hin]; [discriminate|]);
    by apply elem_of_nil in Hin.
Qed.

Lemma render_no_write d file text : WriteText file text ∉ trace (render v a d).
Proof.
  unfold render. rewrite !M_bind_emit. cbn [trace]. intros Hin.
  apply elem_of_cons in Hin as [Hin|Hin]; [done|].
  apply elem_of_cons in Hin as [Hin|Hin]; [done|].
  apply elem_of_trace_bind in Hin as [Hin|(h1 & _ & Hin)].
  { apply mfold_trace_elem in Hin as (K & s1 & _ & Hin).
    by apply render_removed_no_write in Hin. }
  apply elem_of_trace_bind in Hin as [Hin|(h2 & _ & Hin)].
  { apply mfold_trace_elem in Hin as (K & s1 & _ & Hin).
    by apply render_added_no_write in Hin. }
  apply elem_of_trace_bind in Hin as [Hin|(h3 & _ & Hin)].
  { apply mfold_trace_elem in Hin as (K & s1 & _ & Hin).
    by apply render_changed_no_write in Hin. }
  destruct (no_differences d); [destruct v|]; cbn in Hin;
    repeat (apply elem_of_cons in Hin as [Hin|Hin]; [discriminate|]);
    by apply elem_of_nil in Hin.
Qed.

(** C8 (as amended): the page is written once the renderer has returned.
    The styled script then reads the template [index.html] next to itself,
    replaces "{{ content }}" in it by the assembled fragments (a template
    holding the placeholder once, and no other brace, comes out with the
    fragments in its place and the rest unchanged), writes the result to
    output_dir/index.html and copies [pico.min.css] into the output
    directory.  The simpler script has no template, placeholder or
    stylesheet: it writes the fragments between the fixed strings
    "<html><body>" and "</body></html>" to output_dir/diffs.html, and its
    renderer always returns.  When a copy of the styled renderer raises,
    the script stops there and writes no page. *)
Theorem publish_contract (before after : list file) (d : diff_result) :
  diff_engine v before after = Ok d →
  (∀ html, outcome (render v a d) = Ok html →
     main v a s before after
     = MkM (Ok tt)
           (trace (render v a d)
              ++ match v with
                 | Styled =>
                     [ ReadText (Py.os_path_join (script_dir s) "index.html");
                       WriteText (Py.os_path_join (output_dir a) "index.html")
                         (Py.replace (template s) "{{ content }}" html);
                       Copy (Py.os_path_join (script_dir s) "pico.min.css")
                            (Py.os_path_join (output_dir a) "pico.min.css") ]
                 | Simple =>
                     [ WriteText (Py.os_path_join (output_dir a) "diffs.html")
                         (html +:+ "</body></html>") ]
                 end)
     ∧ (∀ pre post,
          template s = pre +:+ "{{ content }}" +:+ post →
          Py.contains pre "{" = false → Py.contains post "{" = false →
          Py.replace (template s) "{{ content }}" html = pre +:+ html +:+ post)
     ∧ (v = Simple → ∃ body, html = "<html><body>" +:+ body))
  ∧ (∀ e, outcome (render v a d) = Raise e →
       main v a s before after = MkM (Raise e) (trace (render v a d))
       ∧ ∀ file text, WriteText file text ∉ trace (main v a s before after))
  ∧ (all_copied v a d → ∃ html, outcome (render v a d) = Ok html)
  ∧ (v = Simple → ∃ html, outcome (render v a d) = Ok html).
Proof.
  intros Hrun. rewrite (main_of_engine _ _ _ _ _ _ Hrun).
  split; [|split; [|split]].
  - intros html Hout. split; [|split].
    + unfold mbind, M_bind. rewrite Hout. by destruct v.
    + intros pre post -> Hpre Hpost. by apply replace_once.
    + intros ->.
      pose proof Hrun as (fragsR & fragsA & fragsC & HR & HA & HC)%fragments_of_engine.
      rewrite (render_shape Simple a d _ _ _ HR HA HC) in Hout
        by by apply all_copied_simple.
      injection Hout as <-. by eexists.
  - intros e Hout.
    assert (render v a d ≫= publish v a s = MkM (Raise e) (trace (render v a d))) as ->.
    { unfold mbind, M_bind. by rewrite Hout. }
    split; [done|]. intros file text. apply render_no_write.
  - intros Hall. by eapply render_returns.
  - intros Hv. eapply render_returns; [done|]. by apply all_copied_simple.
Qed.

End PublishClaims.

(** ** Multiplicities *)

Section Counting.
Context `{PyRuntime} (v : variant).






End Counting.

Section MultiplicityClaims.
Context `{PyRuntime} `{FileSystem} (v : variant) (a : args).


End MultiplicityClaims.

(** ** Last write wins under any runtime *)

Section AnyRuntime.
Context `{PyRuntime}.

(** Whatever the hash, [run1_before_X] and [plain_after_Y] differ in content
    and the key is not reported: the entry of the key is the digest of
    [run2_before_Y], whose bytes are those of the "after" file. *)
Lemma last_before_file_hides_difference d :
  diff_engine Styled [run1_before_X; run2_before_Y] [plain_after_Y] = Ok d →
  content run1_before_X ≠ content plain_after_Y ∧ key_A ∉ changed d.
Proof.
  intros Hrun. split; [done|].
  pose proof Hrun as (b & a & Hb & _)%diff_engine_Ok.
  rewrite (elem_of_changed _ _ _ _ Hrun _ _ Hb).
  intros (fa & Hfa & _ & h & Hh & Hne).
  rewrite (scan_before_last Styled [run1_before_X] run2_before_Y [] b key_A) in Hh;
    [|done|done|by intros ? ?%elem_of_nil].
  apply list_elem_of_singleton in Hfa as ->. injection Hh as <-.
  by rewrite compute_file_hash_sha256 in Hne.
Qed.

(** And as soon as the digests of "X" and "Y" differ, the key is reported
    as changed although [run1_before_X] and [plain_after_X] are identical. *)
Lemma last_before_file_creates_difference d :
  sha256 (bytes "X") ≠ sha256 (bytes "Y") →
  diff_engine Styled [run1_before_X; run2_before_Y] [plain_after_X] = Ok d →
  content run1_before_X = content plain_after_X ∧ key_A ∈ changed d.
Proof.
  intros Hne Hrun. split; [done|].
  pose proof Hrun as (b & a & Hb & _)%diff_engine_Ok.
  rewrite (elem_of_changed _ _ _ _ Hrun _ _ Hb).
  exists plain_after_X. split; [by apply list_elem_of_here|]. split; [done|].
  exists (sha256 (bytes "Y")). split; [|done].
  rewrite (scan_before_last Styled [run1_before_X] run2_before_Y [] b key_A);
    [|done|done|by intros ? ?%elem_of_nil].
  by rewrite compute_file_hash_sha256.
Qed.

End AnyRuntime.

(** * Further properties of the two scripts *)

(** ** Reading in chunks *)

Section Chunks.
Context `{PyRuntime}.





End Chunks.

(** ** Keys *)

Section Keys.
Import Py.

Lemma join_app c l1 l2 :
  l1 ≠ [] → l2 ≠ [] → join c (l1 ++ l2) = join c l1 +:+ String c (join c l2).
Proof.
  intros Hl1 Hl2. induction l1 as [|w l1 IH]; [done|].
  destruct l1 as [|w' l1].
  - cbn [app]. by rewrite join_cons.
  - rewrite <- app_comm_cons, !join_cons by done.
    rewrite IH by done. by rewrite append_assoc, append_cons.
Qed.

Lemma slice_from_suffix {A} (l : list A) : slice_from l (-3) `suffix_of` l.
Proof. rewrite slice_from_drop. apply suffix_drop. Qed.

(** The segments of a key are the last (at most) three segments of the path. *)
Lemma split_key v p K :
  get_pathname_fragment v p = Ok K →
  split sep K = slice_from (split sep p) (-3).
Proof.
  intros ->%get_pathname_fragment_Ok. apply split_join.
  - intros Hnil. pose proof (slice_from_length (split sep p)) as Hlen.
    pose proof (split_length_pos sep p). rewrite Hnil in Hlen.
    cbn [length] in Hlen. lia.
  - pose proof (split_no_sep sep p) as Hall.
    destruct (slice_from_suffix (split sep p)) as [pre Hpre].
    rewrite Hpre in Hall. by apply Forall_app in Hall as [_ Hall].
Qed.

Lemma get_pathname_fragment_below v pre K a b c :
  split sep K = [a; b; c] → get_pathname_fragment v (pre +:+ "/" +:+ K) = Ok K.
Proof.
  intros HK. assert (K = a +:+ "/" +:+ b +:+ "/" +:+ c) as HKeq.
  { rewrite <- (join_split sep K), HK. done. }
  rewrite HKeq at 2. apply (get_pathname_fragment_last3 _ _ (split sep pre)).
  change ("/" +:+ K) with (String sep K). by rewrite split_app, HK.
Qed.

(** X2: a key of three segments is what both scripts reduce a path to
    whatever precedes it: the same file below the "before" root, below the
    "after" root, or below any deeper directory of either, has the same key,
    as the docstring of [get_pathname_fragment] says. *)
Theorem key_ignores_what_precedes (v : variant) (r1 r2 K a b c : string) :
  split sep K = [a; b; c] →
  get_pathname_fragment v (r1 +:+ "/" +:+ K) = Ok K
  ∧ get_pathname_fragment v (r2 +:+ "/" +:+ K) = Ok K
  ∧ get_pathname_fragment v (r1 +:+ "/" +:+ K)
    = get_pathname_fragment v (r2 +:+ "/" +:+ K).
Proof.
  intros HK. rewrite !(get_pathname_fragment_below _ _ _ _ _ _ HK). done.
Qed.

(** X3: normalization is idempotent, and a key is an end of its path: when
    a path reduces to [K], [K] reduces to itself, the path is some prefix
    followed by [K], and [K] has at most three segments (exactly three in
    the styled script). *)
Theorem key_is_a_fixed_point (v : variant) (p K : string) :
  get_pathname_fragment v p = Ok K →
  get_pathname_fragment v K = Ok K
  ∧ (∃ pre, p = pre +:+ K)
  ∧ length (split sep K) ≤ 3
  ∧ (v = Styled → length (split sep K) = 3).
Proof.
  intros HK. pose proof (split_key _ _ _ HK) as Hsplit.
  pose proof (slice_from_length (split sep p)) as Hlen. rewrite <- Hsplit in Hlen.
  assert (v = Styled → length (split sep K) = 3) as Hthree.
  { intros ->. assert (3 ≤ length (split sep p)); [|lia].
    apply get_pathname_fragment_styled_Ok. eauto. }
  split; [|split; [|split; [lia | done]]].
  - assert (slice_from (split sep K) (-3) = split sep K) as Hall.
    { rewrite slice_from_drop. by replace (length (split sep K) - 3) with 0 by lia. }
    unfold get_pathname_fragment. rewrite Hall, join_split. destruct v; [|done].
    rewrite decide_False; [done|]. specialize (Hthree eq_refl). lia.
  - destruct (slice_from_suffix (split sep p)) as [pre Hpre].
    pose proof (join_split sep p) as Hp. rewrite Hpre, <- Hsplit in Hp.
    destruct pre as [|w pre].
    + exists "". cbn [app] in Hp. by rewrite join_split in Hp.
    + exists (join sep (w :: pre) +:+ "/").
      rewrite join_app in Hp; [|done|apply split_not_nil].
      rewrite join_split in Hp. by rewrite <- Hp, append_assoc.
Qed.

(** X4: [get_locale_and_screenshot_name] raises its [ValueError] exactly on
    paths that do not have three segments and never an [IndexError]; on
    three segments it returns the first one and the part of the last one
    before its first dot, the name the renderer's f-strings compute; and it
    accepts every key of the styled script. *)
Theorem get_locale_and_screenshot_name_spec (p : string) :
  (∀ a b c, split sep p = [a; b; c] →
     ∃ name rest, split dot c = name :: rest
                  ∧ get_locale_and_screenshot_name p = Ok (a, name)
                  ∧ screenshot_name p = Ok name)
  ∧ (length (split sep p) ≠ 3 →
       get_locale_and_screenshot_name p
       = Raise (ValueError ("Path should have 3 parts: " +:+ p)))
  ∧ (∀ q, get_pathname_fragment Styled q = Ok p →
       ∃ locale name, get_locale_and_screenshot_name p = Ok (locale, name)).
Proof.
  assert (∀ a b c, split sep p = [a; b; c] →
     ∃ name rest, split dot c = name :: rest
                  ∧ get_locale_and_screenshot_name p = Ok (a, name)
                  ∧ screenshot_name p = Ok name) as Hthree.
  { intros a b c Hp.
    pose proof (split_not_nil dot c) as Hne.
    destruct (split dot c) as [|name rest] eqn:Hc; [done|].
    exists name, rest. split; [done|].
    assert (getitem [a; b; c] (-1) = Ok c) as Hlast by apply (getitem_last [a; b] c).
    unfold get_locale_and_screenshot_name, screenshot_name. rewrite Hp. split.
    - rewrite decide_False by (cbn [length]; lia).
      rewrite getitem_first. cbn [mbind result_bind]. rewrite Hlast.
      cbn [mbind result_bind]. by rewrite Hc, getitem_first.
    - rewrite Hlast. cbn [mbind result_bind]. by rewrite Hc, getitem_first. }
  split; [done|]. split.
  - intros Hlen. unfold get_locale_and_screenshot_name. by rewrite decide_True.
  - intros q (a & b & c & Hp)%styled_key_segments.
    destruct (Hthree a b c Hp) as (name & rest & _ & Hres & _). eauto.
Qed.

End Keys.

(** ** Exceptions of a run *)

Section Failures.
Context `{PyRuntime} `{FileSystem}.
Import Py.

Lemma rfold_raises {S A} (step : S → A → result S) l1 x l2 s s1 e :
  rfold step l1 s = Ok s1 → step s1 x = Raise e →
  rfold step (l1 ++ x :: l2) s = Raise e.
Proof.
  intros H1 Hx. rewrite rfold_app, H1. cbn [mbind result_bind].
  by rewrite rfold_cons, Hx.
Qed.


(** The only exception of either scanning loop is that of the normalizer. *)
Lemma scan_before_step_Raise v st f e :
  scan_before_step v st f = Raise e ↔ key_of v f = Raise e.
Proof.
  unfold scan_before_step, key_of.
  destruct (get_pathname_fragment v (path f));
    unfold mbind, mret, result_bind, result_ret; split; by intros [= ->].
Qed.

Lemma scan_after_step_Raise v m st f e :
  scan_after_step v m st f = Raise e ↔ key_of v f = Raise e.
Proof.
  unfold scan_after_step, key_of.
  destruct (get_pathname_fragment v (path f));
    unfold mbind, mret, result_bind, result_ret; split; by intros [= ->].
Qed.


Lemma key_of_styled_short f :
  length (split sep (path f)) < 3 →
  key_of Styled f = Raise (ValueError ("Path should have at least 3 parts: " +:+ path f)).
Proof. apply get_pathname_fragment_styled_short. Qed.

Lemma key_of_long v f :
  3 ≤ length (split sep (path f)) → ∃ k, key_of v f = Ok k.
Proof.
  intros Hlen. destruct v.
  - by apply get_pathname_fragment_styled_Ok.
  - apply get_pathname_fragment_simple_total.
Qed.

Lemma keyed_each v files keys :
  keyed v files keys → ∀ f, f ∈ files → ∃ k, key_of v f = Ok k.
Proof.
  induction 1 as [|f k files keys Hk _ IH]; intros g Hg.
  - by apply elem_of_nil in Hg.
  - apply elem_of_cons in Hg as [->|Hg]; [eauto | by apply IH].
Qed.

Lemma diff_engine_raises_before v l1 f l2 after e :
  (∀ g, g ∈ l1 → ∃ k, key_of v g = Ok k) → key_of v f = Raise e →
  diff_engine v (l1 ++ f :: l2) after = Raise e.
Proof.
  intros Hl1 Hf. destruct (scan_before_total v l1 Hl1) as [b Hb].
  unfold diff_engine, scan_before.
  rewrite (rfold_raises _ _ _ _ _ b e); [done | exact Hb |].
  by apply scan_before_step_Raise.
Qed.

Lemma diff_engine_raises_after v before l1 f l2 e :
  (∀ g, g ∈ before ++ l1 → ∃ k, key_of v g = Ok k) → key_of v f = Raise e →
  diff_engine v before (l1 ++ f :: l2) = Raise e.
Proof.
  intros Hl1 Hf. destruct (scan_before_total v before) as [b Hb].
  { intros g Hg. apply Hl1, elem_of_app. by left. }
  destruct (scan_after_total v (before_screenshots b) l1) as [a1 Ha1].
  { intros g Hg. apply Hl1, elem_of_app. by right. }
  unfold diff_engine. rewrite Hb. cbn [mbind result_bind]. unfold scan_after.
  rewrite (rfold_raises _ _ _ _ _ a1 e); [done | exact Ha1 |].
  by apply scan_after_step_Raise.
Qed.


Lemma main_of_Raise v a s before after e :
  diff_engine v before after = Raise e →
  main v a s before after = MkM (Raise e) [].
Proof. intros Hrun. unfold main. by rewrite Hrun. Qed.


(** X5: when a globbed path has fewer than three segments the styled
    script stops with the [ValueError] of the first such path, the "before"
    tree being scanned first, and its trace is empty: by then it has printed
    nothing, created no directory, copied nothing and written no page. *)
Theorem styled_aborts_before_any_output (a : args) (s : assets)
    (before after l1 l2 : list file) (f : file) :
  before ++ after = l1 ++ f :: l2 →
  (∀ g, g ∈ l1 → 3 ≤ length (split sep (path g))) →
  length (split sep (path f)) < 3 →
  main Styled a s before after
  = MkM (Raise (ValueError ("Path should have at least 3 parts: " +:+ path f))) [].
Proof.
  intros Hsplit Hl1 Hf. apply main_of_Raise.
  pose proof (key_of_styled_short f Hf) as Hraise.
  assert (∀ g, g ∈ l1 → ∃ k, key_of Styled g = Ok k) as Hok.
  { intros g Hg. by apply key_of_long, Hl1. }
  apply app_eq_inv in Hsplit as [(k & -> & Hk)|(k & -> & ->)].
  - destruct k as [|g k].
    + cbn [app] in Hk. subst after. rewrite app_nil_r.
      rewrite <- (app_nil_l (f :: l2)). apply diff_engine_raises_after; [|done].
      by rewrite app_nil_r.
    + injection Hk as <- ->. by apply diff_engine_raises_before.
  - by apply diff_engine_raises_after.
Qed.


End Failures.

(** ** More on the buckets *)

Section Symmetry.
Context `{PyRuntime} (v : variant).

Lemma keyed_sublist_differs (m : gmap string string) files keys :
  keyed v files keys → omap (differs v m) files `sublist_of` keys.
Proof.
  induction 1 as [|f k files keys Hk _ IH]; [done|].
  cbn [omap list_omap]. fold (omap (differs v m) files).
  destruct (differs v m f) as [k'|] eqn:Hd.
  - apply differs_Some in Hd as [Hk' _].
    assert (k' = k) as -> by congruence. by apply sublist_skip.
  - by apply sublist_cons.
Qed.

(** Each "after" file takes exactly one of the three branches of the
    second loop. *)
Lemma branches_partition (m : gmap string string) files keys :
  keyed v files keys →
  length (filter (λ k, m !! k = None) keys) + length (omap (differs v m) files)
    + length (omap (falls_through v m) files) = length files.
Proof.
  induction 1 as [|f k files keys Hk _ IH]; [done|].
  rewrite filter_cons. cbn [omap list_omap length].
  fold (omap (differs v m) files) (omap (falls_through v m) files).
  unfold differs at 1, falls_through at 1. rewrite Hk.
  destruct (m !! k) as [h|] eqn:Hm.
  - rewrite (decide_False (P := Some h = None)) by done.
    destruct (decide (h ≠ compute_file_hash (content f))) as [Hne|Heq].
    + rewrite decide_False by congruence. cbn [length]. lia.
    + apply dec_stable in Heq. subst h. rewrite decide_True by done. cbn [length]. lia.
  - rewrite (decide_True (P := None = None)) by done.
    rewrite decide_False by done. cbn [length]. lia.
Qed.

(** X7: exchanging the two directories exchanges "removed" and "added": the
    swapped run returns as well, its [onlyInBefore] is the set of the keys
    of [onlyInAfter] and its [onlyInAfter] has the keys of [onlyInBefore].
    When within each tree the files of one key have one digest, the two runs
    report the same keys as changed. *)
Theorem swapping_the_trees (before after : list file) (d : diff_result) :
  diff_engine v before after = Ok d →
  ∃ d', diff_engine v after before = Ok d'
    ∧ onlyInBefore d' = list_to_set (onlyInAfter d)
    ∧ (∀ K, K ∈ onlyInAfter d' ↔ K ∈ onlyInBefore d)
    ∧ ((∀ f g, f ∈ before → g ∈ before → key_of v f = key_of v g →
          sha256 (content f) = sha256 (content g)) →
       (∀ f g, f ∈ after → g ∈ after → key_of v f = key_of v g →
          sha256 (content f) = sha256 (content g)) →
       ∀ K, K ∈ changed d' ↔ K ∈ changed d).
Proof.
  intros Hrun.
  destruct (diff_engine_keys _ _ _ _ Hrun) as (kb & ka & Hkb & Hka).
  destruct (diff_engine_total v after before) as [d' Hrun'].
  { intros f Hf. apply (keyed_each v (after ++ before) (ka ++ kb)); [|done].
    by apply keyed_app. }
  exists d'. split; [done|].
  pose proof Hrun as (b & a & Hb & _)%diff_engine_Ok.
  pose proof Hrun' as (b' & a' & Hb' & _)%diff_engine_Ok.
  pose proof (elem_of_onlyInBefore _ _ _ _ Hrun) as HB.
  pose proof (elem_of_onlyInAfter _ _ _ _ Hrun) as HA.
  pose proof (elem_of_onlyInBefore _ _ _ _ Hrun') as HB'.
  pose proof (elem_of_onlyInAfter _ _ _ _ Hrun') as HA'.
  split; [|split].
  - apply set_eq. intros K. by rewrite elem_of_list_to_set, HB', HA.
  - intros K. by rewrite HA', HB.
  - intros Huniq_b Huniq_a K.
    rewrite (elem_of_changed _ _ _ _ Hrun' _ _ Hb'), (elem_of_changed _ _ _ _ Hrun _ _ Hb).
    split.
    + intros (fb & Hfb & Hkfb & h & Hh & Hne).
      apply (scan_before_lookup_Some _ _ _ _ _ Hb') in Hh as (fa & Hfa & Hkfa & ->).
      exists fa. split; [done|]. split; [done|].
      destruct (last_with_key v before K) as (l1 & g & l2 & Hsplit & Hg & Hl2); [eauto|].
      subst before. exists (sha256 (content g)). split.
      * rewrite <- compute_file_hash_sha256. by eapply scan_before_last.
      * rewrite (Huniq_b g fb); [congruence| |done|congruence].
        apply elem_of_app. right. by left.
    + intros (fa & Hfa & Hkfa & h & Hh & Hne).
      apply (scan_before_lookup_Some _ _ _ _ _ Hb) in Hh as (fb & Hfb & Hkfb & ->).
      exists fb. split; [done|]. split; [done|].
      destruct (last_with_key v after K) as (l1 & g & l2 & Hsplit & Hg & Hl2); [eauto|].
      subst after. exists (sha256 (content g)). split.
      * rewrite <- compute_file_hash_sha256. by eapply scan_before_last.
      * rewrite (Huniq_a g fa); [congruence| |done|congruence].
        apply elem_of_app. right. by left.
Qed.

(** X8: [onlyInAfter] and [changed] list their keys in the order in which
    the "after" files were globbed, and every "after" file is counted in
    exactly one of [onlyInAfter], [changed] and the unchanged keys. *)
Theorem after_buckets_follow_glob_order (before after : list file) (d : diff_result) :
  diff_engine v before after = Ok d →
  ∃ ka, keyed v after ka
    ∧ onlyInAfter d `sublist_of` ka
    ∧ changed d `sublist_of` ka
    ∧ unchanged v before after `sublist_of` ka
    ∧ length (onlyInAfter d) + length (changed d)
        + length (unchanged v before after) = length after.
Proof.
  intros (b & a & Hb & Ha & ->)%diff_engine_Ok.
  apply scan_after_Ok in Ha as (Hka & Hoia & Hdiffs).
  exists (paths_after a). cbn [onlyInAfter changed]. unfold unchanged.
  rewrite Hb, Hoia, Hdiffs. split; [done|]. split; [|split; [|split]].
  - apply sublist_filter.
  - by apply keyed_sublist_differs.
  - clear Hoia Hdiffs. induction Hka as [|f k files keys Hk _ IH]; [done|].
    cbn [omap list_omap]. fold (omap (falls_through v (before_screenshots b)) files).
    destruct (falls_through v (before_screenshots b) f) as [k'|] eqn:Hd.
    + apply falls_through_Some in Hd as [Hk' _].
      assert (k' = k) as -> by congruence. by apply sublist_skip.
    + by apply sublist_cons.
  - by apply branches_partition.
Qed.

(** X9: with no file in the "before" tree every "after" file is reported as
    added, in glob order and with its repetitions; with no file in the
    "after" tree the set of the "before" keys is reported as removed.  In
    both cases nothing is changed. *)
Theorem one_tree_empty (files : list file) (keys : list string) :
  keyed v files keys →
  diff_engine v [] files = Ok (DiffResult ∅ keys [])
  ∧ diff_engine v files [] = Ok (DiffResult (list_to_set keys) [] []).
Proof.
  intros Hkeys.
  pose proof (keyed_each v _ _ Hkeys) as Hall. split.
  - apply diff_engine_Ok. exists (BeforeScan ∅ []).
    destruct (scan_after_total v ∅ files Hall) as [a Ha]. exists a.
    split; [done|]. split; [done|].
    apply scan_after_Ok in Ha as (Hka & Hoia & Hdiffs).
    rewrite (keyed_functional _ _ _ _ Hka Hkeys) in Hoia.
    destruct a as [oia df pa]. cbn [only_in_after diffs paths_before] in *.
    subst oia df. f_equal.
    + symmetry. apply elem_of_equiv_empty_L. intros K [HK _]%elem_of_difference.
      by apply elem_of_list_to_set, elem_of_nil in HK.
    + clear. induction keys as [|k keys IH]; [done|].
      rewrite filter_cons, decide_True by apply lookup_empty. by f_equal.
    + clear. induction files as [|f files IH]; [done|].
      cbn [omap list_omap]. fold (omap (differs v ∅) files).
      assert (differs v ∅ f = None) as ->; [|done].
      unfold differs. destruct (key_of v f); [by rewrite lookup_empty | done].
  - apply diff_engine_Ok.
    destruct (scan_before_total v files Hall) as [b Hb]. exists b, (AfterScan [] [] []).
    split; [done|]. split; [done|].
    apply scan_before_paths in Hb. rewrite (keyed_functional _ _ _ _ Hb Hkeys).
    f_equal. cbn [paths_after]. apply set_eq. intros K.
    rewrite elem_of_difference. split.
    + intros HK. split; [done|]. intros HK'.
      by apply elem_of_list_to_set, elem_of_nil in HK'.
    + by intros [HK _].
Qed.

(** X10: the three buckets are all empty, which is when the scripts add
    "No differences found", exactly when the two trees reduce to the same
    keys and every "after" file has the digest of the last "before" file of
    its key. *)
Theorem no_differences_iff (before after : list file) (d : diff_result) :
  diff_engine v before after = Ok d →
  no_differences d = true ↔
  (∀ K, (∃ f, f ∈ before ∧ key_of v f = Ok K) ↔ (∃ f, f ∈ after ∧ key_of v f = Ok K))
  ∧ (∀ fa K, fa ∈ after → key_of v fa = Ok K →
       ∃ l1 fb l2, before = l1 ++ fb :: l2 ∧ key_of v fb = Ok K
                   ∧ (∀ f, f ∈ l2 → key_of v f ≠ Ok K)
                   ∧ sha256 (content fb) = sha256 (content fa)).
Proof.
  intros Hrun.
  pose proof Hrun as (b & a & Hb & _)%diff_engine_Ok.
  pose proof (elem_of_onlyInBefore _ _ _ _ Hrun) as HB.
  pose proof (elem_of_onlyInAfter _ _ _ _ Hrun) as HA.
  pose proof (λ K, elem_of_changed _ _ _ _ Hrun K _ Hb) as HC.
  unfold no_differences. rewrite !andb_true_iff, !bool_decide_eq_true.
  split.
  - intros [[Hoia Hoib] Hch].
    assert (∀ K, (∃ f, f ∈ after ∧ key_of v f = Ok K) →
                 ∃ f, f ∈ before ∧ key_of v f = Ok K) as Hab.
    { intros K Hex.
      destruct (decide (Exists (λ f, key_of v f = Ok K) before)) as [Hin|Hout].
      - by apply Exists_exists in Hin.
      - assert (K ∈ onlyInAfter d) as Hin; [|by rewrite Hoia in Hin; apply elem_of_nil in Hin].
        apply HA. split; [done|]. intros Hex'. by apply Hout, Exists_exists. }
    split.
    + intros K. split; [|apply Hab]. intros Hex.
      destruct (decide (Exists (λ f, key_of v f = Ok K) after)) as [Hin|Hout].
      * by apply Exists_exists in Hin.
      * assert (K ∈ onlyInBefore d) as Hin; [|by rewrite Hoib in Hin; apply elem_of_empty in Hin].
        apply HB. split; [done|]. intros Hex'. by apply Hout, Exists_exists.
    + intros fa K Hfa Hka.
      destruct (last_with_key v before K) as (l1 & fb & l2 & Hsplit & Hkb & Hl2);
        [apply Hab; eauto|].
      exists l1, fb, l2. split; [done|]. split; [done|]. split; [done|].
      destruct (decide (sha256 (content fb) = sha256 (content fa))) as [|Hne]; [done|].
      assert (K ∈ changed d) as Hin; [|by rewrite Hch in Hin; apply elem_of_nil in Hin].
      apply HC. exists fa. split; [done|]. split; [done|].
      exists (sha256 (content fb)). split; [|done].
      rewrite <- compute_file_hash_sha256. subst before. by eapply scan_before_last.
  - intros [Hsame Hdig]. split; [split|].
    + apply elem_of_nil_inv. intros K [Hin Hout]%HA. by apply Hout, Hsame.
    + apply elem_of_equiv_empty_L. intros K [Hin Hout]%HB. by apply Hout, Hsame.
    + apply elem_of_nil_inv. intros K (fa & Hfa & Hka & h & Hh & Hne)%HC.
      destruct (Hdig fa K Hfa Hka) as (l1 & fb & l2 & Hsplit & Hkb & Hl2 & Heq).
      subst before. rewrite (scan_before_last _ _ _ _ _ _ Hb Hkb Hl2) in Hh.
      injection Hh as <-. by rewrite compute_file_hash_sha256 in Hne.
Qed.

End Symmetry.

(** ** The two scripts side by side *)

Section Variants.
Context `{PyRuntime}.

Lemma key_of_styled_simple f k : key_of Styled f = Ok k → key_of Simple f = Ok k.
Proof.
  unfold key_of, get_pathname_fragment. by case_decide.
Qed.

Lemma scan_before_from_simple files st b :
  rfold (scan_before_step Styled) files st = Ok b →
  rfold (scan_before_step Simple) files st = Ok b.
Proof.
  revert st. induction files as [|f files IH]; intros st; [done|].
  rewrite !rfold_cons.
  destruct (scan_before_step Styled st f) as [st1|e] eqn:Hstep; [|done].
  pose proof Hstep as (k & Hk & ->)%scan_before_step_Ok.
  assert (scan_before_step Simple st f
          = Ok (BeforeScan (<[k := compute_file_hash (content f)]> (before_screenshots st))
                           (paths_before st ++ [k]))) as ->.
  { apply scan_before_step_Ok. exists k. split; [by apply key_of_styled_simple | done]. }
  apply IH.
Qed.

Lemma differs_styled_simple m f k :
  key_of Styled f = Ok k → differs Simple m f = differs Styled m f.
Proof.
  intros Hk. unfold differs. by rewrite Hk, (key_of_styled_simple _ _ Hk).
Qed.

Lemma falls_through_styled_simple m f k :
  key_of Styled f = Ok k → falls_through Simple m f = falls_through Styled m f.
Proof.
  intros Hk. unfold falls_through. by rewrite Hk, (key_of_styled_simple _ _ Hk).
Qed.

Lemma scan_after_from_simple m files st a :
  rfold (scan_after_step Styled m) files st = Ok a →
  rfold (scan_after_step Simple m) files st = Ok a.
Proof.
  revert st. induction files as [|f files IH]; intros st; [done|].
  rewrite !rfold_cons.
  destruct (scan_after_step Styled m st f) as [st1|e] eqn:Hstep; [|done].
  pose proof Hstep as (k & Hk & ->)%scan_after_step_Ok.
  rewrite (scan_after_step_key Simple m st f k (key_of_styled_simple _ _ Hk)).
  cbn [omap list_omap]. rewrite (differs_styled_simple _ _ _ Hk).
  apply IH.
Qed.

(** X11: on trees the styled script accepts, the simpler script computes the
    same three buckets and the same unchanged keys; the validation of the
    path length is the only difference between the two engines. *)
Theorem variants_agree_on_valid_paths (before after : list file) (d : diff_result) :
  diff_engine Styled before after = Ok d →
  diff_engine Simple before after = Ok d
  ∧ unchanged Simple before after = unchanged Styled before after.
Proof.
  intros (b & a & Hb & Ha & ->)%diff_engine_Ok. split.
  - apply diff_engine_Ok. exists b, a. split; [by apply scan_before_from_simple|].
    split; [by apply scan_after_from_simple | done].
  - assert (scan_before Simple before = Ok b) as Hb' by by apply scan_before_from_simple.
    unfold unchanged. rewrite Hb, Hb'.
    apply scan_after_Ok in Ha as [Hka _].
    induction Hka as [|f k files keys Hk _ IH]; [done|].
    cbn [omap list_omap]. by rewrite (falls_through_styled_simple _ _ _ Hk), IH.
Qed.

End Variants.

(** ** Paths and fragments of a key *)

Section KeyPaths.
Context `{PyRuntime} `{FileSystem}.
Import Py.







Lemma startswith_free s c : s ≠ "" → contains s c = false → startswith s c = false.
Proof. destruct s as [|a s]; [done|]. cbn. by intros _ [? _]%orb_false_elim. Qed.

(** The segments of a three-segment key. *)
Lemma key_segments K x y z :
  split sep K = [x; y; z] →
  K = (x +:+ "/" +:+ y) +:+ "/" +:+ z
  ∧ contains x sep = false ∧ contains y sep = false ∧ contains z sep = false.
Proof.
  intros HK. pose proof (split_no_sep sep K) as Hall. rewrite HK in Hall.
  apply Forall_cons in Hall as [Hx Hall]. apply Forall_cons in Hall as [Hy Hall].
  apply Forall_cons in Hall as [Hz _]. split; [|done].
  rewrite <- (join_split sep K) at 1. rewrite HK. cbn [join]. by rewrite append_assoc.
Qed.




Lemma os_path_join_rooted X K : startswith K sep = true → os_path_join X K = K.
Proof. intros HK. unfold os_path_join. by rewrite HK. Qed.

Lemma os_path_join_plain sub K :
  sub ≠ "" → endswith sub sep = false → startswith K sep = false →
  os_path_join sub K = sub +:+ "/" +:+ K.
Proof.
  intros Hsub Hend HK. unfold os_path_join. rewrite HK, Hend.
  by rewrite bool_decide_eq_false_2.
Qed.


(** X13: a key that begins with the separator, as results from a globbed
    path of the form /y/z, is taken by [os.path.join] as it stands: the
    styled script calls [shutil.copy] with the key itself as source and as
    destination, and that call raises.  The round stops there with a
    [SameFileError] or a [FileNotFoundError] and appends no fragment, and a
    run whose buckets hold such a key does not return. *)
Theorem rooted_key_is_copied_onto_itself (a : args) (K : string) :
  startswith K sep = true →
  (∃ e, (e = SameFileError K K ∨ e = FileNotFoundError K)
        ∧ ∀ html,
            render_removed Styled a html K = MkM (Raise e) (removed_events Styled a K)
            ∧ render_added Styled a html K = MkM (Raise e) (added_events Styled a K)
            ∧ outcome (render_changed Styled a html K) = Raise e
            ∧ copies (trace (render_changed Styled a html K)) = [(K, K)])
  ∧ copies (removed_events Styled a K) = [(K, K)]
  ∧ copies (added_events Styled a K) = [(K, K)]
  ∧ (∀ before after d,
       diff_engine Styled before after = Ok d →
       K ∈ onlyInBefore d ∨ K ∈ onlyInAfter d ∨ K ∈ changed d →
       ∃ e, outcome (render Styled a d) = Raise e)
  ∧ (∀ y z, K = "/" +:+ y +:+ "/" +:+ z → contains y sep = false →
       contains z sep = false → ∀ v, get_pathname_fragment v K = Ok K).
Proof.
  intros HK.
  destruct (shutil_copy_result_same K) as [e He].
  assert (shutil_copy_result (os_path_join (before_dir a) K)
            (os_path_join (output_dir_before a) K) = Raise e) as Hb
    by by rewrite !(os_path_join_rooted _ _ HK).
  assert (shutil_copy_result (os_path_join (after_dir a) K)
            (os_path_join (output_dir_after a) K) = Raise e) as Ha
    by by rewrite !(os_path_join_rooted _ _ HK).
  split; [|split; [|split; [|split]]].
  - exists e. split.
    { apply shutil_copy_result_Raise in He. done. }
    intros html. split; [by apply render_removed_Raise|].
    split; [by apply render_added_Raise|].
    rewrite (render_changed_Raise_before a html K e Hb). cbn [outcome trace].
    split; [done|]. cbn. by rewrite !(os_path_join_rooted _ _ HK).
  - rewrite (copies_removed_events Styled). by rewrite !(os_path_join_rooted _ _ HK).
  - rewrite (copies_added_events Styled). by rewrite !(os_path_join_rooted _ _ HK).
  - intros before after d Hrun Hin.
    destruct (outcome (render Styled a d)) as [html|e'] eqn:Hout; [|by eexists].
    destruct (render_Ok_all_copied Styled a _ _ _ _ Hrun Hout) as [Hcb Hca].
    destruct Hin as [Hin|[Hin|Hin]].
    + specialize (Hcb K (or_introl Hin) eq_refl). congruence.
    + specialize (Hca K (or_introl Hin) eq_refl). congruence.
    + specialize (Hcb K (or_intror Hin) eq_refl). congruence.
  - intros y z HKeq Hy Hz v. rewrite HKeq at 2.
    apply (get_pathname_fragment_last3 v K [] "" y z). rewrite HKeq.
    change ("/" +:+ y +:+ "/" +:+ z) with ("" +:+ String sep (y +:+ String sep z)).
    rewrite split_append by done. rewrite split_append by done.
    by rewrite split_free.
Qed.

(** X14: the fragments of a relative key x/y/z, written out.  The name is
    the part of z before its first dot; the heading of the styled script is
    built from the second segment y, not from the locale x that
    [get_locale_and_screenshot_name] returns, and holds the text of the
    bound method [upper], which the f-string never calls. *)
Theorem fragments_of_a_key (K x y z : string) :
  split sep K = [x; y; z] → x ≠ "" →
  ∃ name rest,
    split dot z = name :: rest
    ∧ get_locale_and_screenshot_name K = Ok (x, name)
    ∧ removed_fragment Styled K
      = Ok ("<p><h2>" +:+ str_upper_method y +:+ ": REMOVED " +:+ name
              +:+ "</h2><img src='before/" +:+ K +:+ "'></p>")
    ∧ added_fragment Styled K
      = Ok ("<p><h2>" +:+ str_upper_method y +:+ ": ADDED " +:+ name
              +:+ "</h2><img src='after/" +:+ K +:+ "'></p>")
    ∧ changed_fragment Styled K
      = Ok ("<p><h2>" +:+ str_upper_method y +:+ ": " +:+ name
              +:+ "</h2><img src='before/" +:+ K +:+ "'>&nbsp;<img src='after/"
              +:+ K +:+ "'></p>")
    ∧ removed_fragment Simple K
      = Ok ("<p>REMOVED " +:+ name +:+ "</br><img src='before/" +:+ K +:+ "'></p>")
    ∧ added_fragment Simple K
      = Ok ("<p>ADDED " +:+ name +:+ "</br><img src='after/" +:+ K +:+ "'></p>")
    ∧ changed_fragment Simple K
      = Ok ("<p>" +:+ name +:+ "</br><img src='before/" +:+ K
              +:+ "'>&nbsp;<img src='after/" +:+ K +:+ "'></p>").
Proof.
  intros HK Hx.
  pose proof (split_not_nil dot z) as Hz.
  destruct (split dot z) as [|name rest] eqn:Hsplit; [done|]. clear Hz.
  exists name, rest. split; [done|].
  assert (getitem [x; y; z] (-1) = Ok z) as Hlast by apply (getitem_last [x; y] z).
  assert (screenshot_name K = Ok name) as Hname.
  { unfold screenshot_name. rewrite HK, Hlast. cbn [mbind result_bind].
    rewrite Hsplit. apply getitem_first. }
  assert (locale_heading K = Ok (str_upper_method y)) as Hhead.
  { unfold locale_heading. by rewrite HK, getitem_second. }
  assert (startswith K sep = false) as Hrel.
  { destruct (key_segments _ _ _ _ HK) as (-> & Hxs & _).
    rewrite !startswith_append by (by destruct x). by apply startswith_free. }
  assert (∀ sub, sub = "before" ∨ sub = "after" →
                 img sub K = "<img src='" +:+ sub +:+ "/" +:+ K +:+ "'>") as Himg.
  { intros sub Hsub. unfold img. rewrite os_path_join_plain; [|by destruct Hsub as [->| ->]..|done].
    by rewrite !append_assoc. }
  split.
  { unfold get_locale_and_screenshot_name. rewrite HK.
    rewrite decide_False by (cbn [length]; lia).
    rewrite getitem_first. cbn [mbind result_bind]. rewrite Hlast. cbn [mbind result_bind].
    rewrite Hsplit, getitem_first. done. }
  unfold removed_fragment, added_fragment, changed_fragment.
  rewrite Hhead, Hname. cbn [mbind result_bind mret result_ret].
  rewrite !Himg by auto.
  repeat split; f_equal; rewrite ?append_assoc; reflexivity.
Qed.

End KeyPaths.

(** ** Templates without, or with several, placeholders *)

Section Templates.
Import Py.

Lemma replace_twice c old' new pre mid post :
  contains pre c = false → contains mid c = false → contains post c = false →
  replace (pre +:+ String c old' +:+ mid +:+ String c old' +:+ post) (String c old') new
  = pre +:+ new +:+ mid +:+ new +:+ post.
Proof.
  intros Hpre Hmid Hpost. unfold replace.
  rewrite replace_from_pre, replace_from_match by done.
  rewrite replace_from_pre, replace_from_match by done.
  by rewrite replace_from_free.
Qed.

(** X15: [str.replace] substitutes every occurrence and is silent when
    there is none: with a template that holds no brace the styled script
    writes the template as it is and the fragments are lost; with a
    template that holds the placeholder twice the fragments appear twice. *)
Theorem publish_with_other_templates (a : args) (s : assets) (html : string) :
  (contains (template s) "{" = false →
   publish Styled a s html
   = MkM (Ok tt)
       [ ReadText (os_path_join (script_dir s) "index.html");
         WriteText (os_path_join (output_dir a) "index.html") (template s);
         Copy (os_path_join (script_dir s) "pico.min.css")
              (os_path_join (output_dir a) "pico.min.css") ])
  ∧ (∀ pre mid post,
       template s = pre +:+ "{{ content }}" +:+ mid +:+ "{{ content }}" +:+ post →
       contains pre "{" = false → contains mid "{" = false → contains post "{" = false →
       publish Styled a s html
       = MkM (Ok tt)
           [ ReadText (os_path_join (script_dir s) "index.html");
             WriteText (os_path_join (output_dir a) "index.html")
               (pre +:+ html +:+ mid +:+ html +:+ post);
             Copy (os_path_join (script_dir s) "pico.min.css")
                  (os_path_join (output_dir a) "pico.min.css") ]).
Proof.
  split.
  - intros Hfree. unfold publish, placeholder, replace.
    by rewrite (replace_from_free "{" "{ content }}" html (template s) Hfree).
  - intros pre mid post Htpl Hpre Hmid Hpost. unfold publish, placeholder.
    rewrite Htpl.
    by rewrite (replace_twice "{" "{ content }}" html pre mid post Hpre Hmid Hpost).
Qed.

End Templates.

(** * The claims on concrete trees *)

Section Examples.
#[local] Existing Instance reference_runtime.

(** Membership in a literal list, and case analysis on it. *)
Ltac here :=
  cbn [app]; repeat first [apply list_elem_of_here | apply list_elem_of_further].
Ltac each H :=
  repeat (apply elem_of_cons in H as [->|H]);
  [..| apply elem_of_nil in H; destruct H].

Section Scenario.
#[local] Existing Instance scenario_fs.

(** Digests of the reference runtime against hashlib's. *)
Example sha256_examples :
  sha256 (bytes "")
  = "e3b0c44298fc1c149afbf4c8996fb92427ae41e4649b934ca495991b7852b855"
  ∧ sha256 (bytes "abc")
    = "ba7816bf8f01cfea414140de5dae2223b00361a396177a9cb410ff61f20015ad"
  ∧ compute_file_hash (bytes "X")
    = "4b68ab3847feda7d6c62c1fbcbeebfa35eab7351ed5e78f4ddadea5df64b8015"
  ∧ compute_file_hash (bytes "Y")
    = "18f5384d58bcb1bba0bcd9e6a6781d1a6ac2cc280c330ecbab6cb7931b721552"
  ∧ compute_file_hash (bytes "aaaaaaaaaaaaaaaaaaaaaaaaaaaaaaaaaaaaaaaaaaaaaaaaaaaaaaaa")
    = "b35439a4ac6f0948b6d6f9e3c6af0f5f590ce20f1bde7090ef7970686ec6738a".
Proof. repeat split; vm_compute; reflexivity. Qed.

Example split_examples :
  Py.split Py.sep "a/en/tools_views/Foo.png" = ["a"; "en"; "tools_views"; "Foo.png"]
  ∧ Py.split Py.sep "" = [""]
  ∧ Py.split Py.sep "/a//b/" = [""; "a"; ""; "b"; ""].
Proof. repeat split; reflexivity. Qed.

Example replace_examples :
  Py.replace "<b>{{ content }}</b>{{ content }}" "{{ content }}" "x{y" = "<b>x{y</b>x{y"
  ∧ Py.replace "{{{ content }}" "{{ content }}" "Z" = "{Z"
  ∧ Py.replace "a{{ content }{{ content }}" "{{ content }}" "Z" = "a{{ content }Z".
Proof. repeat split; reflexivity. Qed.

Example dirname_examples :
  Py.os_path_dirname "en/tools_views/Foo.png" = "en/tools_views"
  ∧ Py.os_path_dirname "Foo.png" = ""
  ∧ Py.os_path_dirname "/Foo.png" = "/"
  ∧ Py.os_path_dirname "a//Foo.png" = "a".
Proof. repeat split; reflexivity. Qed.

Example join_examples :
  Py.os_path_join "out" "before" = "out/before"
  ∧ Py.os_path_join "out/" "before" = "out/before"
  ∧ Py.os_path_join "" "before" = "before"
  ∧ Py.os_path_join "out" "/abs/F.png" = "/abs/F.png".
Proof. repeat split; reflexivity. Qed.

Example getitem_examples :
  Py.getitem ["en"; "tools_views"; "A.png"] 1 = Ok "tools_views"
  ∧ Py.getitem ["en"; "tools_views"; "A.png"] (-1) = Ok "A.png"
  ∧ Py.getitem ["A.png"] 1 = Raise (IndexError "list index out of range")
  ∧ Py.slice_from ["a"; "en"; "tools_views"; "A.png"] (-3) = ["en"; "tools_views"; "A.png"]
  ∧ Py.slice_from ["tools_views"; "A.png"] (-3) = ["tools_views"; "A.png"].
Proof. repeat split; reflexivity. Qed.

Example screenshot_name_examples :
  screenshot_name "en/tools_views/A.png" = Ok "A"
  ∧ screenshot_name "en/tools_views/A.b.png" = Ok "A"
  ∧ get_locale_and_screenshot_name "en/tools_views/A.png" = Ok ("en", "A").
Proof. repeat split; reflexivity. Qed.

(** A file one level deeper than expected keeps its key, but the path the
    styled script copies from is no longer the globbed file. *)
Example deeper_file_copy_source :
  key_of Styled run1_before_X = Ok key_A
  ∧ Py.os_path_join (before_dir scenario_args) key_A = "shots/before/en/tools_views/A.png"
  ∧ path run1_before_X = "shots/before/run1/en/tools_views/A.png".
Proof. repeat split; reflexivity. Qed.

(** The scenario of the specification, run by the styled script. *)
Example scenario_styled :
  diff_engine Styled scenario_before scenario_after = Ok scenario_result
  ∧ diff_engine Simple scenario_before scenario_after = Ok scenario_result.
Proof. split; vm_compute; reflexivity. Qed.

(** When two "before" files reduce to one key it is the last one that
    decides: the first of them and the "after" file have identical bytes,
    yet the key is reported as changed; and against an "after" file with
    other bytes than the first one, the key is not reported at all. *)
Example duplicate_before_key_decides_by_last :
  key_of Styled run1_before_X = Ok key_A
  ∧ key_of Styled run2_before_Y = Ok key_A
  ∧ key_of Styled plain_after_X = Ok key_A
  ∧ content run1_before_X = content plain_after_X
  ∧ diff_engine Styled [run1_before_X; run2_before_Y] [plain_after_X]
    = Ok (DiffResult ∅ [] [key_A])
  ∧ content run1_before_X ≠ content plain_after_Y
  ∧ diff_engine Styled [run1_before_X; run2_before_Y] [plain_after_Y]
    = Ok (DiffResult ∅ [] []).
Proof. repeat split; try (vm_compute; reflexivity). by vm_compute. Qed.

Lemma differing_files_are_changed_witness :
  "en/tools_views/A.png" ∈ changed scenario_result
  ∧ ("en/tools_views/A.png" ∉ onlyInBefore scenario_result)
  ∧ ("en/tools_views/A.png" ∉ onlyInAfter scenario_result).
Proof.
  assert (diff_engine Styled scenario_before scenario_after = Ok scenario_result)
    as Hrun by (vm_compute; reflexivity).
  destruct (differing_files_are_changed Styled scenario_before scenario_after
              scenario_result
              (File "shots/before/en/tools_views/A.png" (bytes "X"))
              (File "shots/after/en/tools_views/A.png" (bytes "X'"))
              "en/tools_views/A.png" Hrun) as (Hdiff & _ & _).
  - here.
  - vm_compute. reflexivity.
  - intros f Hf Hk. each Hf; [reflexivity | vm_compute in Hk; discriminate Hk].
  - here.
  - vm_compute. reflexivity.
  - intros f Hf Hk. each Hf; [reflexivity | vm_compute in Hk; discriminate Hk].
  - apply Hdiff. vm_compute. discriminate.
Defined.

Lemma only_before_key_is_removed_witness :
  "es/tools_views/B.png" ∈ onlyInBefore scenario_result
  ∧ ("es/tools_views/B.png" ∉ onlyInAfter scenario_result)
  ∧ ("es/tools_views/B.png" ∉ changed scenario_result)
  ∧ ("es/tools_views/B.png" ∉ unchanged Styled scenario_before scenario_after).
Proof.
  apply (only_before_key_is_removed Styled scenario_before scenario_after _
           (File "shots/before/es/tools_views/B.png" (bytes "Y")));
    [vm_compute; reflexivity | here | vm_compute; reflexivity |].
  intros fa Hfa. each Hfa; by vm_compute.
Defined.

Lemma only_after_key_is_added_witness :
  "fr/tools_views/C.png" ∈ onlyInAfter scenario_result
  ∧ ("fr/tools_views/C.png" ∉ onlyInBefore scenario_result)
  ∧ ("fr/tools_views/C.png" ∉ changed scenario_result)
  ∧ ("fr/tools_views/C.png" ∉ unchanged Styled scenario_before scenario_after).
Proof.
  apply (only_after_key_is_added Styled scenario_before scenario_after _
           (File "shots/after/fr/tools_views/C.png" (bytes "Z")));
    [vm_compute; reflexivity | here | vm_compute; reflexivity |].
  intros fb Hfb. each Hfb; by vm_compute.
Defined.

(** Two "after" files of one key: the one with the bytes of the "before"
    file takes the branch that appends nothing, the other one puts the key
    in [changed], which is then its one class. *)
Example duplicate_after_key_changed_and_unchanged :
  diff_engine Styled [plain_before_X] [run1_after_X; run2_after_Y]
  = Ok (DiffResult ∅ [] [key_A])
  ∧ unchanged Styled [plain_before_X] [run1_after_X; run2_after_Y] = [key_A]
  ∧ key_A ∈ changed (DiffResult ∅ [] [key_A])
  ∧ ¬ unlisted (DiffResult ∅ [] [key_A]) key_A.
Proof.
  split; [|split; [|split]].
  - vm_compute. reflexivity.
  - vm_compute. reflexivity.
  - here.
  - intros (_ & _ & Hno). apply Hno. here.
Qed.

Lemma every_key_in_exactly_one_class_witness :
  (key_A ∈ onlyInBefore (DiffResult ∅ [] [key_A])
   ∧ (key_A ∉ onlyInAfter (DiffResult ∅ [] [key_A]))
   ∧ (key_A ∉ changed (DiffResult ∅ [] [key_A]))
   ∧ ¬ unlisted (DiffResult ∅ [] [key_A]) key_A)
  ∨ ((key_A ∉ onlyInBefore (DiffResult ∅ [] [key_A]))
     ∧ key_A ∈ onlyInAfter (DiffResult ∅ [] [key_A])
     ∧ (key_A ∉ changed (DiffResult ∅ [] [key_A]))
     ∧ ¬ unlisted (DiffResult ∅ [] [key_A]) key_A)
  ∨ ((key_A ∉ onlyInBefore (DiffResult ∅ [] [key_A]))
     ∧ (key_A ∉ onlyInAfter (DiffResult ∅ [] [key_A]))
     ∧ key_A ∈ changed (DiffResult ∅ [] [key_A])
     ∧ ¬ unlisted (DiffResult ∅ [] [key_A]) key_A)
  ∨ ((key_A ∉ onlyInBefore (DiffResult ∅ [] [key_A]))
     ∧ (key_A ∉ onlyInAfter (DiffResult ∅ [] [key_A]))
     ∧ (key_A ∉ changed (DiffResult ∅ [] [key_A]))
     ∧ unlisted (DiffResult ∅ [] [key_A]) key_A).
Proof.
  assert (diff_engine Styled [plain_before_X] [run1_after_X; run2_after_Y]
          = Ok (DiffResult ∅ [] [key_A])) as Hrun by (vm_compute; reflexivity).
  destruct (every_key_in_exactly_one_class Styled _ _ _ Hrun) as (Hone & _).
  apply Hone. exists plain_before_X. split; [here | vm_compute; reflexivity].
Defined.

Lemma identical_trees_report_no_differences_witness :
  trace (main Styled scenario_args scenario_assets scenario_before scenario_same)
  = [ Makedirs "out/before"; Makedirs "out/after";
      Print "No differences found";
      ReadText "/ci/diff_report/index.html";
      WriteText "out/index.html"
        "<html><main><h1>No differences found</h1></main></html>";
      Copy "/ci/diff_report/pico.min.css" "out/pico.min.css" ].
Proof.
  destruct (identical_trees_report_no_differences Styled scenario_args scenario_assets
              scenario_before scenario_same) as (d & _ & _ & _ & _ & _ & ->).
  - intros f Hf. apply elem_of_app in Hf as [Hf|Hf]; each Hf; eexists;
      vm_compute; reflexivity.
  - intros K. split; intros (f & Hf & <-); each Hf.
    + exists (File "shots/after/en/tools_views/A.png" (bytes "X")).
      split; [here | vm_compute; reflexivity].
    + exists (File "shots/after/es/tools_views/B.png" (bytes "Y")).
      split; [here | vm_compute; reflexivity].
    + exists (File "shots/before/en/tools_views/A.png" (bytes "X")).
      split; [here | vm_compute; reflexivity].
    + exists (File "shots/before/es/tools_views/B.png" (bytes "Y")).
      split; [here | vm_compute; reflexivity].
  - intros fb fa K Hfb Hfa. each Hfb; each Hfa; vm_compute; congruence.
  - reflexivity.
Defined.



(** C8 as stated fails on the simpler script: it reads no template, copies
    no stylesheet, and what it writes to diffs.html is not the template with
    its placeholder replaced, whatever the replacement. *)
Lemma simple_variant_has_no_template :
  main Simple scenario_args scenario_assets scenario_before scenario_after
  = MkM (Ok tt)
        [ Makedirs "out/before"; Makedirs "out/after";
          Print "Screenshot only in before: es/tools_views/B.png | output_dir_before='out/before'";
          Makedirs "out/before/es/tools_views";
          Print "Screenshot only in after: fr/tools_views/C.png | output_dir_after='out/after'";
          Makedirs "out/after/fr/tools_views";
          Print "Screenshot different: en/tools_views/A.png";
          Makedirs "out/before/en/tools_views";
          Makedirs "out/after/en/tools_views";
          WriteText "out/diffs.html"
            "<html><body><p>REMOVED B</br><img src='before/es/tools_views/B.png'></p><p>ADDED C</br><img src='after/fr/tools_views/C.png'></p><p>A</br><img src='before/en/tools_views/A.png'>&nbsp;<img src='after/en/tools_views/A.png'></p></body></html>" ]
  ∧ copies (trace (main Simple scenario_args scenario_assets
                     scenario_before scenario_after)) = []
  ∧ ∀ c, WriteText "out/diffs.html" (Py.replace (template scenario_assets) placeholder c)
         ∉ trace (main Simple scenario_args scenario_assets
                    scenario_before scenario_after).
Proof.
  assert (main Simple scenario_args scenario_assets scenario_before scenario_after
          = MkM (Ok tt)
        [ Makedirs "out/before"; Makedirs "out/after";
          Print "Screenshot only in before: es/tools_views/B.png | output_dir_before='out/before'";
          Makedirs "out/before/es/tools_views";
          Print "Screenshot only in after: fr/tools_views/C.png | output_dir_after='out/after'";
          Makedirs "out/after/fr/tools_views";
          Print "Screenshot different: en/tools_views/A.png";
          Makedirs "out/before/en/tools_views";
          Makedirs "out/after/en/tools_views";
          WriteText "out/diffs.html"
            "<html><body><p>REMOVED B</br><img src='before/es/tools_views/B.png'></p><p>ADDED C</br><img src='after/fr/tools_views/C.png'></p><p>A</br><img src='before/en/tools_views/A.png'>&nbsp;<img src='after/en/tools_views/A.png'></p></body></html>" ])
    as Hmain by (vm_compute; reflexivity).
  split; [exact Hmain|]. rewrite Hmain. cbn [trace]. split; [reflexivity|].
  intros c Hin.
  assert (Py.replace (template scenario_assets) placeholder c
          = "<html><main>" +:+ Py.replace "{{ content }}</main></html>" placeholder c)
    as Hpage by (by apply (replace_from_pre "{" "{ content }}" c "<html><main>")).
  rewrite Hpage in Hin.
  repeat (apply elem_of_cons in Hin as [Heq|Hin];
          [first [discriminate Heq
                 | injection Heq as Heq; vm_compute in Heq; discriminate Heq]|]).
  by apply elem_of_nil in Hin.
Qed.

Lemma publish_contract_witness :
  ∃ html,
    main Styled scenario_args scenario_assets scenario_before scenario_after
    = MkM (Ok tt)
          (trace (render Styled scenario_args scenario_result)
             ++ [ ReadText "/ci/diff_report/index.html";
                  WriteText "out/index.html" ("<html><main>" +:+ html +:+ "</main></html>");
                  Copy "/ci/diff_report/pico.min.css" "out/pico.min.css" ]).
Proof.
  assert (diff_engine Styled scenario_before scenario_after = Ok scenario_result)
    as Hrun by (vm_compute; reflexivity).
  assert (∃ html, outcome (render Styled scenario_args scenario_result) = Ok html)
    as [html Hout] by (eexists; vm_compute; reflexivity).
  destruct (publish_contract Styled scenario_args scenario_assets _ _ _ Hrun)
    as (Hpublish & _).
  destruct (Hpublish html Hout) as (Hmain & Htemplate & _).
  exists html. rewrite Hmain.
  by rewrite (Htemplate "<html><main>" "</main></html>").
Defined.

Lemma before_map_last_write_wins_witness :
  ∃ d, diff_engine Styled ([run1_before_X] ++ run2_before_Y :: []) [plain_after_X] = Ok d
       ∧ key_A ∈ changed d
       ∧ (key_A ∉ unchanged Styled ([run1_before_X] ++ run2_before_Y :: []) [plain_after_X]).
Proof.
  destruct (before_map_last_write_wins Styled [run1_before_X] [] [plain_after_X]
              run2_before_Y key_A)
    as (b & d & Hb & Hlookup & Hrun & Hchanged & Hunchanged).
  - vm_compute. reflexivity.
  - by intros f ?%elem_of_nil.
  - intros f Hf. cbn [app] in Hf. each Hf; eexists; vm_compute; reflexivity.
  - exists d. split; [exact Hrun|]. split.
    + apply Hchanged. exists plain_after_X. split; [here|].
      split; [vm_compute; reflexivity | vm_compute; discriminate].
    + intros (fa & Hfa & _ & Heq)%Hunchanged. each Hfa.
      vm_compute in Heq. discriminate Heq.
Defined.

(** ** The further properties on concrete trees *)

(** A file read in three calls: two full chunks and the rest. *)
Example read_chunks_example :
  read_chunks (3 * CHUNK) (replicate (2 * CHUNK + 116) "x"%byte)
  = Some [replicate CHUNK "x"%byte; replicate CHUNK "x"%byte; replicate 116 "x"%byte]
  ∧ read_chunks 1 [] = Some []
  ∧ read_chunks (2 * CHUNK) (replicate CHUNK "x"%byte) = Some [replicate CHUNK "x"%byte].
Proof. repeat split; vm_compute; reflexivity. Qed.

Lemma key_ignores_what_precedes_witness :
  get_pathname_fragment Styled ("shots/before" +:+ "/" +:+ key_A) = Ok key_A
  ∧ get_pathname_fragment Styled ("shots/after/run1" +:+ "/" +:+ key_A) = Ok key_A
  ∧ get_pathname_fragment Styled ("shots/before" +:+ "/" +:+ key_A)
    = get_pathname_fragment Styled ("shots/after/run1" +:+ "/" +:+ key_A).
Proof.
  apply (key_ignores_what_precedes Styled "shots/before" "shots/after/run1" key_A
           "en" "tools_views" "A.png").
  reflexivity.
Defined.

Lemma key_is_a_fixed_point_witness :
  get_pathname_fragment Styled key_A = Ok key_A
  ∧ (∃ pre, path run1_before_X = pre +:+ key_A)
  ∧ length (Py.split Py.sep key_A) ≤ 3
  ∧ (Styled = Styled → length (Py.split Py.sep key_A) = 3).
Proof.
  apply (key_is_a_fixed_point Styled (path run1_before_X) key_A).
  reflexivity.
Defined.

Lemma styled_aborts_before_any_output_witness :
  main Styled short_args scenario_assets short_before short_after
  = MkM (Raise (ValueError "Path should have at least 3 parts: after/A.png")) [].
Proof.
  apply (styled_aborts_before_any_output short_args scenario_assets
           short_before short_after short_before
           [File "after/en/tools_views/A.png" (bytes "Y")]
           (File "after/A.png" (bytes "X"))).
  - reflexivity.
  - intros g Hg. each Hg. vm_compute. lia.
  - vm_compute. lia.
Defined.

Lemma swapping_the_trees_witness :
  ∃ d', diff_engine Styled scenario_after scenario_before = Ok d'
    ∧ onlyInBefore d' = list_to_set (onlyInAfter scenario_result)
    ∧ (∀ K, K ∈ onlyInAfter d' ↔ K ∈ onlyInBefore scenario_result)
    ∧ ((∀ f g, f ∈ scenario_before → g ∈ scenario_before → key_of Styled f = key_of Styled g →
          sha256 (content f) = sha256 (content g)) →
       (∀ f g, f ∈ scenario_after → g ∈ scenario_after → key_of Styled f = key_of Styled g →
          sha256 (content f) = sha256 (content g)) →
       ∀ K, K ∈ changed d' ↔ K ∈ changed scenario_result).
Proof.
  apply (swapping_the_trees Styled scenario_before scenario_after scenario_result).
  vm_compute. reflexivity.
Defined.

Lemma after_buckets_follow_glob_order_witness :
  ∃ ka, keyed Styled scenario_after ka
    ∧ onlyInAfter scenario_result `sublist_of` ka
    ∧ changed scenario_result `sublist_of` ka
    ∧ unchanged Styled scenario_before scenario_after `sublist_of` ka
    ∧ length (onlyInAfter scenario_result) + length (changed scenario_result)
        + length (unchanged Styled scenario_before scenario_after)
      = length scenario_after.
Proof.
  apply (after_buckets_follow_glob_order Styled scenario_before scenario_after
           scenario_result).
  vm_compute. reflexivity.
Defined.

Lemma one_tree_empty_witness :
  diff_engine Styled [] scenario_after
  = Ok (DiffResult ∅ ["en/tools_views/A.png"; "fr/tools_views/C.png"] [])
  ∧ diff_engine Styled scenario_after []
    = Ok (DiffResult (list_to_set ["en/tools_views/A.png"; "fr/tools_views/C.png"]) [] []).
Proof.
  apply (one_tree_empty Styled scenario_after
           ["en/tools_views/A.png"; "fr/tools_views/C.png"]).
  repeat constructor.
Defined.

Lemma no_differences_iff_witness :
  no_differences (DiffResult ∅ [] []) = true ↔
  (∀ K, (∃ f, f ∈ scenario_before ∧ key_of Styled f = Ok K)
        ↔ (∃ f, f ∈ scenario_same ∧ key_of Styled f = Ok K))
  ∧ (∀ fa K, fa ∈ scenario_same → key_of Styled fa = Ok K →
       ∃ l1 fb l2, scenario_before = l1 ++ fb :: l2 ∧ key_of Styled fb = Ok K
                   ∧ (∀ f, f ∈ l2 → key_of Styled f ≠ Ok K)
                   ∧ sha256 (content fb) = sha256 (content fa)).
Proof.
  apply (no_differences_iff Styled scenario_before scenario_same (DiffResult ∅ [] [])).
  vm_compute. reflexivity.
Defined.

Lemma variants_agree_on_valid_paths_witness :
  diff_engine Simple scenario_before scenario_after = Ok scenario_result
  ∧ unchanged Simple scenario_before scenario_after
    = unchanged Styled scenario_before scenario_after.
Proof.
  apply (variants_agree_on_valid_paths scenario_before scenario_after scenario_result).
  vm_compute. reflexivity.
Defined.


Lemma rooted_key_is_copied_onto_itself_witness :
  render_removed Styled scenario_args "" "/tools_views/A.png"
  = MkM (Raise (FileNotFoundError "/tools_views/A.png"))
        [ Print "Screenshot only in before: /tools_views/A.png | output_dir_before='out/before'";
          Makedirs "/tools_views";
          Copy "/tools_views/A.png" "/tools_views/A.png" ].
Proof.
  destruct (rooted_key_is_copied_onto_itself scenario_args "/tools_views/A.png")
    as ((e & _ & Hround) & _); [reflexivity|].
  destruct (Hround "") as (Hremoved & _).
  rewrite Hremoved. vm_compute in Hremoved. by injection Hremoved as ->.
Defined.

Lemma fragments_of_a_key_witness :
  removed_fragment Simple "en/tools_views/A.b.png"
  = Ok "<p>REMOVED A</br><img src='before/en/tools_views/A.b.png'></p>"
  ∧ changed_fragment Styled "en/tools_views/A.b.png"
    = Ok ("<p><h2>" +:+ str_upper_method "tools_views" +:+ ": A</h2>"
            +:+ "<img src='before/en/tools_views/A.b.png'>&nbsp;"
            +:+ "<img src='after/en/tools_views/A.b.png'></p>").
Proof.
  destruct (fragments_of_a_key "en/tools_views/A.b.png" "en" "tools_views" "A.b.png")
    as (name & rest & Hsplit & _ & _ & _ & Hchanged & Hremoved & _); [reflexivity | done |].
  injection Hsplit as <- <-. split; [exact Hremoved | exact Hchanged].
Defined.

End Scenario.

(** *** Several "after" files of one key *)

Section Duplicates.
#[local] Existing Instance duplicates_fs.



End Duplicates.

(** *** Trees that are not laid out as the renderer expects *)

Section Displaced.
#[local] Existing Instance displaced_fs.

(** Both "after" files of the key lie one level too deep, and the file
    <after_dir>/<key> that the styled script copies from does not exist: the
    second [shutil.copy] of the first round raises. *)
Example styled_stops_at_missing_source :
  diff_engine Styled [plain_before_X] [run2_after_Y; run3_after_Z]
  = Ok (DiffResult ∅ [] [key_A; key_A])
  ∧ main Styled scenario_args scenario_assets [plain_before_X] [run2_after_Y; run3_after_Z]
    = MkM (Raise (FileNotFoundError "shots/after/en/tools_views/A.png"))
          [ Makedirs "out/before"; Makedirs "out/after";
            Print "Screenshot different: en/tools_views/A.png";
            Makedirs "out/before/en/tools_views";
            Makedirs "out/after/en/tools_views";
            Copy "shots/before/en/tools_views/A.png" "out/before/en/tools_views/A.png";
            Copy "shots/after/en/tools_views/A.png" "out/after/en/tools_views/A.png" ].
Proof. split; vm_compute; reflexivity. Qed.

End Displaced.

Section Flat.
#[local] Existing Instance flat_fs.

(** Screenshots two levels below roots of one segment: every path has three
    segments and is its own key, so that the styled script looks for
    b/b/x/A.png and stops at its first copy; the simpler script ends
    normally. *)
Example styled_stops_below_short_roots :
  diff_engine Styled flat_before flat_after
  = Ok (DiffResult {[ "b/x/A.png" ]} ["a/x/A.png"] [])
  ∧ main Styled flat_args scenario_assets flat_before flat_after
    = MkM (Raise (FileNotFoundError "b/b/x/A.png"))
          [ Makedirs "out/before"; Makedirs "out/after";
            Print "Screenshot only in before: b/x/A.png | output_dir_before='out/before'";
            Makedirs "out/before/b/x";
            Copy "b/b/x/A.png" "out/before/b/x/A.png" ]
  ∧ outcome (main Simple flat_args scenario_assets flat_before flat_after) = Ok tt.
Proof. repeat split; vm_compute; reflexivity. Qed.

End Flat.

End Examples.
